(** * commitgen: change analysis and rule-based commit suggestions

    A shallow embedding of the parts of [src/index.ts] and
    [src/providers/vercel-google.ts] that turn git output into a
    [GitAnalysis] and a [GitAnalysis] into candidate commit messages,
    together with the properties the specification states about them.

    JavaScript strings are sequences of UTF-16 code units; regular
    expressions are embedded as backtracking matchers in continuation
    passing style, following the ECMAScript matching semantics for the
    constructs the two regular expressions of [analyzeChanges] use. *)

From Stdlib Require Import String Ascii.
From Stdlib Require Import List NArith ZArith Bool Lia.
Import ListNotations.

Set Implicit Arguments.

(* ================================================================= *)
(** ** JavaScript strings *)

Module JS.

(** A UTF-16 code unit. *)
Definition cu := N.

(** A JavaScript string. *)
Definition jsstring := list cu.

(** An ASCII literal of the source, as a JavaScript string. *)
Definition lit (s : string) : jsstring :=
  map N_of_ascii (list_ascii_of_string s).

Arguments lit s%_string.

Definition LF : cu := 10%N.
Definition CR : cu := 13%N.
Definition LS : cu := 8232%N.   (* U+2028 *)
Definition PS : cu := 8233%N.   (* U+2029 *)
Definition PLUS : cu := 43%N.
Definition MINUS : cu := 45%N.
Definition PIPE : cu := 124%N.

(** ECMAScript LineTerminator: LF, CR, U+2028, U+2029. *)
Definition is_line_terminator (c : cu) : bool :=
  (c =? LF)%N || (c =? CR)%N || (c =? LS)%N || (c =? PS)%N.

(** ECMAScript WhiteSpace: TAB, VT, FF, SP, NBSP, ZWNBSP and the
    Unicode space separators (category Zs). *)
Definition is_white_space (c : cu) : bool :=
  (c =? 9)%N || (c =? 11)%N || (c =? 12)%N || (c =? 32)%N ||
  (c =? 160)%N || (c =? 65279)%N || (c =? 5760)%N ||
  ((8192 <=? c)%N && (c <=? 8202)%N) ||
  (c =? 8239)%N || (c =? 8287)%N || (c =? 12288)%N.

(** What the class [\s] matches and what [trim] strips: WhiteSpace and
    LineTerminator. *)
Definition is_space (c : cu) : bool :=
  is_white_space c || is_line_terminator c.

(** What [.] matches (no [s] flag): everything but a LineTerminator. *)
Definition is_dot (c : cu) : bool := negb (is_line_terminator c).

Fixpoint dropWhile (p : cu -> bool) (s : jsstring) : jsstring :=
  match s with
  | [] => []
  | c :: s' => if p c then dropWhile p s' else s
  end.

Definition trimStart (s : jsstring) : jsstring := dropWhile is_space s.
Definition trimEnd (s : jsstring) : jsstring :=
  rev (dropWhile is_space (rev s)).

(** [String.prototype.trim]. *)
Definition trim (s : jsstring) : jsstring := trimEnd (trimStart s).

(** Truthiness of a string: [if (s)] and [s !== ""]. *)
Definition nonempty (s : jsstring) : bool :=
  match s with [] => false | _ :: _ => true end.

(** Splitting at every code unit satisfying [p]; the separators are
    dropped and the result is never empty. *)
Fixpoint split_by (p : cu -> bool) (s : jsstring) : list jsstring :=
  match s with
  | [] => [[]]
  | c :: s' =>
      if p c then [] :: split_by p s'
      else match split_by p s' with
           | l :: ls => (c :: l) :: ls
           | [] => [[c]]
           end
  end.

(** [s.split("\n")]. *)
Definition split_LF (s : jsstring) : list jsstring :=
  split_by (fun c => (c =? LF)%N) s.

Fixpoint startsWith (s p : jsstring) : bool :=
  match p, s with
  | [], _ => true
  | _ :: _, [] => false
  | a :: p', b :: s' => (a =? b)%N && startsWith s' p'
  end.

(** [String.prototype.includes]. *)
Fixpoint includes (s sub : jsstring) : bool :=
  startsWith s sub ||
  match s with
  | [] => false
  | _ :: s' => includes s' sub
  end.

(** [Array.prototype.slice(0, n)]. *)
Definition slice0 {A} (n : nat) (l : list A) : list A := firstn n l.

Definition QUOTE : cu := 34%N.
Definition BACKSLASH : cu := 92%N.
Definition DOT : cu := 46%N.
Definition COLON : cu := 58%N.
Definition LBRACKET : cu := 91%N.
Definition RBRACKET : cu := 93%N.

(** Truthiness of a string that may be [undefined]. *)
Definition truthy (o : option jsstring) : bool :=
  match o with
  | Some s => nonempty s
  | None => false
  end.

(** [a || b] on strings that may be [undefined]. *)
Definition js_or (a b : option jsstring) : option jsstring :=
  if truthy a then a else b.

(** Truthiness of a boolean that may be [undefined]. *)
Definition truthy_bool (o : option bool) : bool :=
  match o with
  | Some b => b
  | None => false
  end.

End JS.

Import JS.

(* ================================================================= *)
(** ** Regular expressions *)

Module RegExp.

(** The state of a match attempt: the input already consumed, last code
    unit first; the input still ahead; the first capture group. *)
Record mstate := MState {
  before : list cu;
  after : list cu;
  capture1 : option jsstring
}.

Definition cont := mstate -> option mstate.
Definition matcher := cont -> mstate -> option mstate.

(** One code unit of a class. *)
Definition r_char (p : cu -> bool) : matcher := fun k st =>
  match after st with
  | c :: s => if p c then k (MState (c :: before st) s (capture1 st)) else None
  | [] => None
  end.

Definition r_seq (m1 m2 : matcher) : matcher := fun k st => m1 (m2 k) st.

(** The assertion [^]: the start of the input, or with the [m] flag
    also the position after a LineTerminator. *)
Definition r_bol (multiline : bool) : matcher := fun k st =>
  match before st with
  | [] => k st
  | c :: _ => if multiline && is_line_terminator c then k st else None
  end.

(** Negative lookahead [(?!m)]. *)
Definition r_not_ahead (m : matcher) : matcher := fun k st =>
  match m Some st with
  | Some _ => None
  | None => k st
  end.

(** Greedy [p*] on a class: the longest run first, then shorter ones. *)
Fixpoint star_loop (p : cu -> bool) (k : cont)
    (bef aft : list cu) (cap : option jsstring) : option mstate :=
  match aft with
  | c :: s =>
      if p c then
        match star_loop p k (c :: bef) s cap with
        | Some r => Some r
        | None => k (MState bef aft cap)
        end
      else k (MState bef aft cap)
  | [] => k (MState bef aft cap)
  end.

Definition r_star (p : cu -> bool) : matcher := fun k st =>
  star_loop p k (before st) (after st) (capture1 st).

(** Greedy [p+]. *)
Definition r_plus (p : cu -> bool) : matcher := r_seq (r_char p) (r_star p).

(** Lazy [p*?] on a class: the shortest run first, then longer ones. *)
Fixpoint lazy_loop (p : cu -> bool) (k : cont)
    (bef aft : list cu) (cap : option jsstring) : option mstate :=
  match k (MState bef aft cap) with
  | Some r => Some r
  | None =>
      match aft with
      | c :: s => if p c then lazy_loop p k (c :: bef) s cap else None
      | [] => None
      end
  end.

Definition r_star_lazy (p : cu -> bool) : matcher := fun k st =>
  lazy_loop p k (before st) (after st) (capture1 st).

(** Lazy [p+?]. *)
Definition r_plus_lazy (p : cu -> bool) : matcher :=
  r_seq (r_char p) (r_star_lazy p).

(** The input between two positions of one attempt. *)
Definition consumed_since (st st' : mstate) : jsstring :=
  rev (firstn (length (before st') - length (before st)) (before st')).

(** Capture group 1. *)
Definition r_group1 (m : matcher) : matcher := fun k st =>
  m (fun st' => k (MState (before st') (after st') (Some (consumed_since st st')))) st.

(** A match: [match[0]] and [match[1]]. *)
Record jsmatch := JsMatch {
  m_0 : jsstring;
  m_1 : option jsstring
}.

(** [RegExpBuiltinExec] without the [g] and [y] flags: the first start
    position, from 0 on, at which the matcher succeeds. *)
Fixpoint exec_loop (m : matcher) (bef aft : list cu) : option jsmatch :=
  match m Some (MState bef aft None) with
  | Some r => Some (JsMatch (consumed_since (MState bef aft None) r) (capture1 r))
  | None =>
      match aft with
      | c :: s => exec_loop m (c :: bef) s
      | [] => None
      end
  end.

(** [s.match(re)] for a regular expression without the [g] flag. *)
Definition js_match (m : matcher) (s : jsstring) : option jsmatch :=
  exec_loop m [] s.

(** The matches [s.match(re)] collects with the [g] flag: after a match
    the search goes on at its end, one further for an empty match.
    [skip] counts the code units still inside the last match. *)
Fixpoint match_all (m : matcher) (bef aft : list cu) (skip : nat)
    {struct aft} : list jsstring :=
  match skip with
  | S n =>
      match aft with
      | c :: s => match_all m (c :: bef) s n
      | [] => []
      end
  | O =>
      match m Some (MState bef aft None) with
      | Some r =>
          let found := consumed_since (MState bef aft None) r in
          found ::
          match aft with
          | c :: s => match_all m (c :: bef) s (length found - 1)
          | [] => []
          end
      | None =>
          match aft with
          | c :: s => match_all m (c :: bef) s 0
          | [] => []
          end
      end
  end.

(** [s.match(re)] with the [g] flag: [null] when nothing matches. *)
Definition js_match_global (m : matcher) (s : jsstring) : option (list jsstring) :=
  match match_all m [] s 0 with
  | [] => None
  | l => Some l
  end.

End RegExp.

Import RegExp.

(* ================================================================= *)
(** ** Data model ([src/types.ts])

    The counts are [number]s that only ever hold integers; they are
    integers here. Optional fields are options. *)

Record GitAnalysis := mkGitAnalysis {
  filesChanged : list jsstring;
  additions : Z;
  deletions : Z;
  hasStaged : bool;
  hasUnstaged : bool;
  diff : jsstring
}.

Record CommitMessage := mkCommitMessage {
  type : jsstring;
  scope : option jsstring;
  subject : jsstring;
  body : option jsstring;
  breaking : option bool
}.

(** An element of an array as it is at run time: a commit message, or
    any other value ([null], a number, an object of another shape),
    kept by its JSON text. *)
Inductive jsvalue : Type :=
| VMessage (m : CommitMessage)
| VOther (json : jsstring).

(** An object literal [{ type, subject }]. *)
Definition message (t s : jsstring) : CommitMessage :=
  mkCommitMessage t None s None None.

(** An object literal [{ type, subject, scope }]. *)
Definition scoped_message (t s sc : jsstring) : CommitMessage :=
  mkCommitMessage t (Some sc) s None None.

(* ================================================================= *)
(** ** Completions: a value or a thrown exception *)

Inductive completion (A : Type) : Type :=
| Normal (a : A)
| Throw (e : jsstring).

Arguments Normal {A} a.
Arguments Throw {A} e.

Definition bind {A B} (c : completion A) (f : A -> completion B) : completion B :=
  match c with
  | Normal a => f a
  | Throw e => Throw e
  end.

(** [try { c } catch (error) { h error }]. *)
Definition try_catch {A} (c : completion A) (h : jsstring -> completion A) : completion A :=
  match c with
  | Normal a => Normal a
  | Throw e => h e
  end.

Notation "x <- c ;; k" := (bind c (fun x => k))
  (at level 61, c at next level, right associativity).

(* ================================================================= *)
(** ** The orchestrator ([src/index.ts], class [CommitGen]) *)

Module CommitGen.

(** [/^\s*(.+?)\s+\|/] *)
Definition re_stat_path : matcher :=
  r_seq (r_bol false)
    (r_seq (r_star is_space)
       (r_seq (r_group1 (r_plus_lazy is_dot))
          (r_seq (r_plus is_space)
             (r_char (N.eqb PIPE))))).

(** [/^\+(?!\+)/gm] *)
Definition re_addition : matcher :=
  r_seq (r_bol true)
    (r_seq (r_char (N.eqb PLUS)) (r_not_ahead (r_char (N.eqb PLUS)))).

(** [/^-(?!-)/gm] *)
Definition re_deletion : matcher :=
  r_seq (r_bol true)
    (r_seq (r_char (N.eqb MINUS)) (r_not_ahead (r_char (N.eqb MINUS)))).

(** The callback of [lines.forEach]: [files] after one more line. *)
Definition push_path (files : list jsstring) (line : jsstring) : list jsstring :=
  match js_match re_stat_path line with
  | Some m =>
      match m_1 m with
      | Some path => files ++ [path]
      | None => files        (* group 1 takes part in every match *)
      end
  | None => files
  end.

(** [(s.match(re) || []).length] *)
Definition count_matches (re : matcher) (s : jsstring) : Z :=
  Z.of_nat (length (match js_match_global re s with
                    | Some l => l
                    | None => []
                    end)).

(** Lines 46 to 65 of [analyzeChanges], from the three command outputs. *)
Definition analyze (staged unstaged diff : jsstring) : GitAnalysis :=
  let files :=
    if nonempty staged
    then fold_left push_path (split_LF staged) []
    else [] in
  let additions := count_matches re_addition diff in
  let deletions := count_matches re_deletion diff in
  mkGitAnalysis files additions deletions
    (nonempty staged) (nonempty unstaged) diff.

Section Exec.

(** [execSync] of [child_process] with the options of [exec]: the
    standard output of the command, or an exception. *)
Variable execSync : jsstring -> completion jsstring.

Definition exec (cmd : jsstring) : completion jsstring :=
  try_catch
    (out <- execSync cmd ;; Normal (trim out))
    (fun _ => Normal []).

Definition isGitRepo : completion bool :=
  out <- exec (lit "git rev-parse --git-dir") ;;
  Normal (nonempty out).

Definition getStagedChanges : completion jsstring :=
  exec (lit "git diff --cached --stat").

Definition getStagedDiff : completion jsstring :=
  exec (lit "git diff --cached").

Definition getTrackedChanges : completion jsstring :=
  exec (lit "git diff --stat").

Definition analyzeChanges : completion GitAnalysis :=
  staged <- getStagedChanges ;;
  unstaged <- getTrackedChanges ;;
  diff <- getStagedDiff ;;
  Normal (analyze staged unstaged diff).

End Exec.

(** Lines 292 to 304, shared in shape by both suggesters. *)
Definition hasTests (files : list jsstring) : bool :=
  existsb (fun f => includes f (lit "test") || includes f (lit "spec")
                    || includes f (lit "__tests__")) files.

Definition hasDocs (files : list jsstring) : bool :=
  existsb (fun f => includes f (lit "README") || includes f (lit ".md")) files.

Definition hasConfig (files : list jsstring) : bool :=
  existsb (fun f => includes f (lit "config") || includes f (lit ".json")
                    || includes f (lit "package.json")) files.

(** [suggestions.push(...)] under a condition. *)
Definition push_if (c : bool) (new : list CommitMessage)
    (suggestions : list CommitMessage) : list CommitMessage :=
  if c then suggestions ++ new else suggestions.

(** The array [suggestions] when line 358 is reached. *)
Definition collected (analysis : GitAnalysis) : list CommitMessage :=
  let files := filesChanged analysis in
  let additions := additions analysis in
  let deletions := deletions analysis in
  let suggestions := [] in
  let suggestions :=
    push_if ((additions >? deletions * 2)%Z && (additions >? 20)%Z)
      [message (lit "feat") (lit "add new feature")] suggestions in
  let suggestions :=
    push_if ((deletions >? additions * 2)%Z && (deletions >? 20)%Z)
      [message (lit "refactor") (lit "remove unused code")] suggestions in
  let suggestions :=
    push_if (hasTests files)
      [message (lit "test") (lit "add tests")] suggestions in
  let suggestions :=
    push_if (hasDocs files)
      [message (lit "docs") (lit "update documentation")] suggestions in
  let suggestions :=
    push_if (hasConfig files)
      [message (lit "chore") (lit "update configuration")] suggestions in
  let suggestions :=
    push_if (length suggestions =? 0)%nat
      [message (lit "feat") (lit "add feature");
       message (lit "fix") (lit "fix issue");
       message (lit "refactor") (lit "refactor code")] suggestions in
  suggestions.

Definition getFallbackSuggestions (analysis : GitAnalysis) : list CommitMessage :=
  slice0 5 (collected analysis).

Definition breaking_footer : jsstring :=
  [LF; LF] ++ lit "BREAKING CHANGE: Major version update required".

Definition formatCommitMessage (msg : CommitMessage) : jsstring :=
  let result := type msg in
  let result :=
    if truthy (scope msg)
    then result ++ lit "(" ++ match scope msg with Some sc => sc | None => [] end
                ++ lit ")"
    else result in
  let result :=
    if truthy_bool (breaking msg) then result ++ lit "!" else result in
  let result := result ++ lit ": " ++ subject msg in
  let result :=
    if truthy (body msg)
    then result ++ [LF; LF] ++ match body msg with Some b => b | None => [] end
    else result in
  let result :=
    if truthy_bool (breaking msg) then result ++ breaking_footer else result in
  result.

(** [formatted.split("\n")[0]] of [run], line 194. *)
Definition preview (formatted : jsstring) : jsstring :=
  hd [] (split_LF formatted).

(** [f.split(".").pop()] with [ext || ""] of [displayAnalysis], lines 95
    and 96. *)
Definition fileExtension (f : jsstring) : jsstring :=
  last (split_by (fun c => (c =? DOT)%N) f) [].

(** Lines 156 to 188 of [run]: the array [suggestions] when line 188 is
    passed. [generated] is what loading the configuration, creating the
    provider and awaiting its [generateCommitMessage] come to: an array,
    whose elements nothing has checked, [null] or an exception. *)
Definition suggestionsOf (useAi : option bool)
    (generated : completion (option (list jsvalue)))
    (analysis : GitAnalysis) : completion (list jsvalue) :=
  match useAi with
  | Some false => Normal (map VMessage (getFallbackSuggestions analysis))
  | _ =>
      try_catch
        (suggestions <- generated ;;
         match suggestions with
         | None => Throw (lit "No suggestions generated")
         | Some l =>
             if (length l =? 0)%nat
             then Throw (lit "No suggestions generated")
             else Normal l
         end)
        (fun _ => Normal (map VMessage (getFallbackSuggestions analysis)))
  end.

(** The [replace] of line 267: a backslash before every double quote
    of the message. *)
Definition escapeQuotes (commitMessage : jsstring) : jsstring :=
  flat_map (fun c => if (c =? QUOTE)%N then [BACKSLASH; QUOTE] else [c])
    commitMessage.

(** The command of lines 267 to 271. *)
Definition commitCommand (commitMessage : jsstring) (noverify : option bool)
    : jsstring :=
  let commitCmd :=
    lit "git commit -m " ++ [QUOTE] ++ escapeQuotes commitMessage ++ [QUOTE] in
  if truthy_bool noverify then commitCmd ++ lit " --no-verify" else commitCmd.

End CommitGen.

(* ================================================================= *)
(** ** The provider ([src/providers/vercel-google.ts]) *)

Module VercelGoogleProvider.

Section Provider.

(** [inferFeatureType] and [inferScope] are inherited from
    [BaseProvider] ([src/providers/base.ts]); the suggester only
    interpolates their results, so they are parameters here. *)
Variable inferFeatureType : list jsstring -> jsstring.
Variable inferScope : list jsstring -> jsstring.

Definition hasTests (files : list jsstring) : bool :=
  existsb (fun f => includes f (lit "test") || includes f (lit "spec")
                    || includes f (lit "__tests__")) files.

Definition hasDocs (files : list jsstring) : bool :=
  existsb (fun f => includes f (lit "README") || includes f (lit ".md")) files.

Definition hasConfig (files : list jsstring) : bool :=
  existsb (fun f => includes f (lit "config") || includes f (lit ".json")
                    || includes f (lit "package.json")) files.

Definition push_if (c : bool) (new : list CommitMessage)
    (suggestions : list CommitMessage) : list CommitMessage :=
  if c then suggestions ++ new else suggestions.

Definition getFallbackSuggestions (analysis : GitAnalysis) : list CommitMessage :=
  let files := filesChanged analysis in
  let additions := additions analysis in
  let deletions := deletions analysis in
  let suggestions := [] in
  let suggestions :=
    push_if ((additions >? deletions * 2)%Z && (additions >? 20)%Z)
      [scoped_message (lit "feat")
         (lit "add " ++ inferFeatureType files) (inferScope files)]
      suggestions in
  let suggestions :=
    push_if ((deletions >? additions * 2)%Z && (deletions >? 20)%Z)
      [message (lit "refactor")
         (lit "remove unused " ++ inferFeatureType files)]
      suggestions in
  let suggestions :=
    push_if (hasTests files)
      [message (lit "test") (lit "add tests for " ++ inferScope files)]
      suggestions in
  let suggestions :=
    push_if (hasDocs files)
      [message (lit "docs") (lit "update documentation")] suggestions in
  let suggestions :=
    push_if (hasConfig files)
      [message (lit "chore") (lit "update configuration")] suggestions in
  let suggestions :=
    push_if (length suggestions =? 0)%nat
      [message (lit "feat") (lit "update " ++ inferScope files)]
      suggestions in
  suggestions.

(** The fields an instance holds. *)
Record instance := mkInstance {
  name : jsstring;
  apiKey : jsstring;
  model : jsstring
}.

(** The constructor; [env] is
    [process.env.GOOGLE_GENERATIVE_AI_API_KEY]. The [super()] call goes
    to [BaseProvider] ([src/providers/base.ts]) and is taken to
    return. *)
Definition constructor (apiKey model env : option jsstring)
    : completion instance :=
  let key :=
    match js_or (js_or apiKey env) (Some []) with
    | Some k => k
    | None => []
    end in
  let model :=
    match model with
    | Some m => m
    | None => lit "gemini-2.5-flash"
    end in
  if nonempty key
  then Normal (mkInstance (lit "vercel-google") key model)
  else Throw (lit "Google API key is required. Set GOOGLE_GENERATIVE_AI_API_KEY environment variable or pass it in config.").

(** The class [[\s\S]]. *)
Definition any_unit (c : cu) : bool := is_space c || negb (is_space c).

(** [/\[[\s\S]*\]/] *)
Definition re_json_array : matcher :=
  r_seq (r_char (N.eqb LBRACKET))
    (r_seq (r_star any_unit) (r_char (N.eqb RBRACKET))).

(** [response] is what awaiting [generateText] comes to, the building
    of the two prompts included; [JSON_parse] is [JSON.parse] at the
    type the source gives its result. *)
Definition generateCommitMessage (response : completion jsstring)
    (JSON_parse : jsstring -> completion (list CommitMessage))
    (analysis : GitAnalysis) : completion (list CommitMessage) :=
  try_catch
    (text <- response ;;
     match js_match re_json_array text with
     | None => Throw (lit "Failed to parse AI response")
     | Some jsonMatch =>
         suggestions <- JSON_parse (m_0 jsonMatch) ;;
         Normal (slice0 5 suggestions)
     end)
    (fun _ => Normal (getFallbackSuggestions analysis)).

(** The same method with the array of [JSON.parse] as it is at run
    time: its elements need not be commit messages. *)
Definition generateCommitMessage_untyped (response : completion jsstring)
    (JSON_parse : jsstring -> completion (list jsvalue))
    (analysis : GitAnalysis) : completion (list jsvalue) :=
  try_catch
    (text <- response ;;
     match js_match re_json_array text with
     | None => Throw (lit "Failed to parse AI response")
     | Some jsonMatch =>
         suggestions <- JSON_parse (m_0 jsonMatch) ;;
         Normal (slice0 5 suggestions)
     end)
    (fun _ => Normal (map VMessage (getFallbackSuggestions analysis))).

End Provider.

End VercelGoogleProvider.

(* ================================================================= *)
(** ** What the specification says, in its own words *)

Module Spec.

(** The lines of a diff: the pieces between line feeds. *)
Definition lines (s : jsstring) : list jsstring := split_LF s.

Definition head_is (ch : cu) (s : jsstring) : bool :=
  match s with
  | c :: _ => (c =? ch)%N
  | [] => false
  end.

(** A line beginning with exactly one [ch]: a [ch] not followed by
    another one. *)
Definition begins_with_single (ch : cu) (line : jsstring) : bool :=
  match line with
  | c :: rest => (c =? ch)%N && negb (head_is ch rest)
  | [] => false
  end.

(** The number of lines beginning with exactly one [ch]. *)
Definition count_lines_single (ch : cu) (s : jsstring) : Z :=
  Z.of_nat (length (filter (begins_with_single ch) (lines s))).

(** The line terminators other than the line feed: CR, U+2028, U+2029. *)
Definition is_other_terminator (c : cu) : bool :=
  (c =? CR)%N || (c =? LS)%N || (c =? PS)%N.

(** No [ch] stands right after a CR, U+2028 or U+2029; [after_other]
    tells whether the code unit before [s] is one of these. *)
Fixpoint no_start_after_other (ch : cu) (after_other : bool) (s : jsstring)
    : bool :=
  match s with
  | [] => true
  | c :: s' =>
      negb (after_other && (c =? ch)%N)
      && no_start_after_other ch (is_other_terminator c) s'
  end.

(** A diff in which [ch] starts a line only at the beginning and after a
    line feed, as in the output of git for files with LF or CRLF line
    ends. *)
Definition starts_only_after_LF (ch : cu) (diff : jsstring) : bool :=
  no_start_after_other ch false diff.

(** [\s+\|] fits here: a run of whitespace, then [|]. *)
Definition separator_here (r : jsstring) : bool :=
  match r with
  | c :: _ => is_space c && head_is PIPE (dropWhile is_space r)
  | [] => false
  end.

(** Everything before the first run of whitespace followed by [|]. *)
Fixpoint before_separator (r : jsstring) : option jsstring :=
  if separator_here r then Some []
  else match r with
       | c :: s => option_map (cons c) (before_separator s)
       | [] => None
       end.

(** The path of a stat line of the shape "path | changes", leading
    whitespace stripped; [None] for a line not of that shape. *)
Definition path_of_line (line : jsstring) : option jsstring :=
  before_separator (dropWhile is_space line).

Definition paths_of (lines : list jsstring) : list jsstring :=
  flat_map (fun line => match path_of_line line with
                        | Some path => [path]
                        | None => []
                        end) lines.

(** A line as [git diff --stat] writes them: its path holds no CR,
    U+2028 or U+2029, and a line without a path does not have [|] as
    its first code unit after the leading whitespace. *)
Definition plain_line (line : jsstring) : bool :=
  match path_of_line line with
  | Some path => forallb is_dot path
  | None => negb (head_is PIPE (dropWhile is_space line))
  end.

(** The conditions of rules 1 to 5, in the order of evaluation. *)
Definition size_feat (a : GitAnalysis) : bool :=
  (additions a >? 2 * deletions a)%Z && (additions a >? 20)%Z.

Definition size_refactor (a : GitAnalysis) : bool :=
  (deletions a >? 2 * additions a)%Z && (deletions a >? 20)%Z.

Definition conditions (a : GitAnalysis) : list bool :=
  [ size_feat a;
    size_refactor a;
    CommitGen.hasTests (filesChanged a);
    CommitGen.hasDocs (filesChanged a);
    CommitGen.hasConfig (filesChanged a) ].

(** An ordered list of independent rules: of what the rules would
    contribute, [xs], what the matching ones do contribute, in order. *)
Definition fired {A} (a : GitAnalysis) (xs : list A) : list A :=
  map snd (filter fst (combine (conditions a) xs)).

Definition rule_types : list jsstring :=
  [lit "feat"; lit "refactor"; lit "test"; lit "docs"; lit "chore"].

Definition fired_types (a : GitAnalysis) : list jsstring :=
  fired a rule_types.

End Spec.


(* ================================================================= *)
(** ** The two regular expressions in closed form *)

Module Closed.

(** The pieces of a text between the positions where [^] fits with the
    [m] flag: it is cut at every LineTerminator. *)
Definition anchored_pieces (s : jsstring) : list jsstring :=
  split_by is_line_terminator s.

(** The pieces that begin with exactly one [ch]. *)
Definition count_anchored_single (ch : cu) (s : jsstring) : Z :=
  Z.of_nat (length (filter (Spec.begins_with_single ch) (anchored_pieces s))).

(** The matches of [re_single] when only a line feed starts a line. *)
Fixpoint count_from_LF (ch : cu) (start : bool) (aft : list cu) : nat :=
  match aft with
  | [] => 0
  | c :: s =>
      (if start && Spec.begins_with_single ch aft then 1 else 0)
      + count_from_LF ch (c =? LF)%N s
  end.

(** [/^c(?!c)/gm] for a code unit [c]. *)
Definition re_single (ch : cu) : matcher :=
  r_seq (r_bol true)
    (r_seq (r_char (N.eqb ch)) (r_not_ahead (r_char (N.eqb ch)))).

Definition at_line_start (bef : list cu) : bool :=
  match bef with
  | [] => true
  | c :: _ => is_line_terminator c
  end.

(** The matches of [re_single] from a position on, by whether the
    position starts a line. *)
Fixpoint count_from (ch : cu) (start : bool) (aft : list cu) : nat :=
  match aft with
  | [] => 0
  | c :: s =>
      (if start && Spec.begins_with_single ch aft then 1 else 0)
      + count_from ch (is_line_terminator c) s
  end.

(** [\s+\|] with its continuation: what follows group 1. *)
Definition re_separator : matcher :=
  r_seq (r_plus is_space) (r_char (N.eqb PIPE)).

(** What [.*?] then captures from [r] on: the shortest run of [.] that a
    separator follows. *)
Fixpoint dot_path (r : jsstring) : option jsstring :=
  if Spec.separator_here r then Some []
  else match r with
       | c :: s => if is_dot c then option_map (cons c) (dot_path s) else None
       | [] => None
       end.

(** What [(.+?)] captures at [r]. *)
Definition path_at (r : jsstring) : option jsstring :=
  match r with
  | c :: s => if is_dot c then option_map (cons c) (dot_path s) else None
  | [] => None
  end.

(** What [\s*(.+?)\s+\|] captures: the greedy [\s*] gives back
    whitespace while the rest does not fit. *)
Fixpoint strip_then_path (line : jsstring) : option jsstring :=
  match line with
  | c :: s =>
      if is_space c then
        match strip_then_path s with
        | Some path => Some path
        | None => path_at line
        end
      else path_at line
  | [] => None
  end.

(** The continuation of group 1: record the capture, then the separator. *)
Definition after_group (st : mstate) : cont := fun st' =>
  re_separator Some
    (MState (before st') (after st') (Some (consumed_since st st'))).

(** What [push_path] adds for a line. *)
Definition captured (line : jsstring) : list jsstring :=
  match strip_then_path line with
  | Some path => [path]
  | None => []
  end.

(** What [[\s\S]*\]] takes of [s]: up to the last [']'], if any. *)
Fixpoint upto_last_bracket (s : jsstring) : option jsstring :=
  match s with
  | [] => None
  | c :: s' =>
      match upto_last_bracket s' with
      | Some u => Some (c :: u)
      | None => if (c =? RBRACKET)%N then Some [c] else None
      end
  end.

(** The match of [re_json_array] in a text: from the first ['['] that a
    [']'] follows. *)
Fixpoint bracketed (text : jsstring) : option jsstring :=
  match text with
  | [] => None
  | c :: s =>
      match (if (c =? LBRACKET)%N
             then option_map (cons c) (upto_last_bracket s) else None) with
      | Some found => Some found
      | None => bracketed s
      end
  end.

(** The first line of a formatted message: [type(scope)!: subject],
    the scope and the mark only when set. *)
Definition header (msg : CommitMessage) : jsstring :=
  type msg
  ++ match scope msg with
     | Some (c :: sc) => lit "(" ++ (c :: sc) ++ lit ")"
     | _ => []
     end
  ++ (if truthy_bool (breaking msg) then lit "!" else [])
  ++ lit ": " ++ subject msg.

End Closed.

Import Closed.

(* ================================================================= *)
(** ** The suggesters as ordered lists of rules *)

Module Rules.

Section Rules.

Variable inferFeatureType : list jsstring -> jsstring.
Variable inferScope : list jsstring -> jsstring.

(** What the rules of the orchestrator contribute. *)
Definition orchestrator_rules : list CommitMessage :=
  [ message (lit "feat") (lit "add new feature");
    message (lit "refactor") (lit "remove unused code");
    message (lit "test") (lit "add tests");
    message (lit "docs") (lit "update documentation");
    message (lit "chore") (lit "update configuration") ].

Definition orchestrator_generic : list CommitMessage :=
  [ message (lit "feat") (lit "add feature");
    message (lit "fix") (lit "fix issue");
    message (lit "refactor") (lit "refactor code") ].

(** What the rules of the provider contribute. *)
Definition provider_rules (files : list jsstring) : list CommitMessage :=
  [ scoped_message (lit "feat")
      (lit "add " ++ inferFeatureType files) (inferScope files);
    message (lit "refactor") (lit "remove unused " ++ inferFeatureType files);
    message (lit "test") (lit "add tests for " ++ inferScope files);
    message (lit "docs") (lit "update documentation");
    message (lit "chore") (lit "update configuration") ].

Definition provider_generic (files : list jsstring) : list CommitMessage :=
  [ message (lit "feat") (lit "update " ++ inferScope files) ].

Definition or_else {A} (l fallback : list A) : list A :=
  match l with
  | [] => fallback
  | _ :: _ => l
  end.

End Rules.

End Rules.

Import Rules.

(* ================================================================= *)
(** ** Inputs used as examples *)

Module Examples.

(** The diff of the specification's example: two header lines, one
    added and one removed line. *)
Definition spec_diff : jsstring :=
  lit "+++ a" ++ [LF] ++ lit "+foo" ++ [LF] ++ lit "-bar" ++ [LF]
  ++ lit "--- b" ++ [LF].

(** A stat summary of two files, as [exec] returns it. *)
Definition stat_two_files : jsstring :=
  lit "src/index.ts | 10 +++++-----" ++ [LF]
  ++ lit " README.md    |  2 +-" ++ [LF]
  ++ lit " 2 files changed, 7 insertions(+), 5 deletions(-)".

(** A stat text whose second line is whitespace before [|] and whose
    third line has a carriage return inside the path. *)
Definition stat_odd_lines : jsstring :=
  lit "x | 1" ++ [LF] ++ lit "  |" ++ [LF]
  ++ lit "a" ++ [CR] ++ lit "b | 2".


(** 45 additions, 12 deletions, one component file. *)
Definition button_analysis : GitAnalysis :=
  mkGitAnalysis [lit "src/components/Button.tsx"] 45 12 true false [].

(** One plain source file, few changes: no rule fires. *)
Definition small_analysis : GitAnalysis :=
  mkGitAnalysis [lit "src/index.ts"] 3 1 true false [].

(** A git that answers every command with the same text. *)
Definition always (out : jsstring) : jsstring -> completion jsstring :=
  fun _ => Normal out.


End Examples.

(* ================================================================= *)
(** ** Counting additions and deletions *)

Lemma re_single_attempt ch bef aft :
  re_single ch Some (MState bef aft None) =
  if at_line_start bef && Spec.begins_with_single ch aft
  then match aft with
       | c :: s => Some (MState (c :: bef) s None)
       | [] => None
       end
  else None.
Proof.
  unfold re_single, r_seq, r_bol, r_char, r_not_ahead, at_line_start.
  destruct bef as [|b bef']; destruct aft as [|c [|c0 s0]]; simpl;
    rewrite ?(N.eqb_sym c ch), ?(N.eqb_sym c0 ch);
    try destruct (is_line_terminator b); simpl;
    try destruct (ch =? c)%N; simpl;
    try destruct (ch =? c0)%N; reflexivity.
Qed.

Section LineCountingProofs.

Variable ch : cu.
Hypothesis ch_not_terminator : is_line_terminator ch = false.

Lemma consumed_one bef c aft cap cap' :
  consumed_since (MState bef (c :: aft) cap) (MState (c :: bef) aft cap') = [c].
Proof.
  unfold consumed_since; simpl before.
  replace (length (c :: bef) - length bef) with 1
    by (change (length (c :: bef)) with (S (length bef)); lia).
  reflexivity.
Qed.

(** The global match finds one match per line start followed by a
    single [ch]. *)
Lemma match_all_count bef aft :
  length (match_all (re_single ch) bef aft 0) =
  count_from ch (at_line_start bef) aft.
Proof.
  revert bef; induction aft as [|c s IH]; intros bef.
  - simpl. rewrite re_single_attempt. simpl.
    rewrite andb_false_r. reflexivity.
  - cbn [match_all count_from]. rewrite re_single_attempt.
    destruct (at_line_start bef && Spec.begins_with_single ch (c :: s)).
    + rewrite consumed_one. cbn [length Nat.sub]. rewrite IH. reflexivity.
    + rewrite IH. reflexivity.
Qed.

Lemma split_by_cons p s : exists l ls, split_by p s = l :: ls.
Proof.
  destruct s as [|c s]; simpl; [eauto|].
  destruct (p c); [eauto|]. destruct (split_by p s); eauto.
Qed.

Lemma terminator_is_not_ch c :
  is_line_terminator c = true -> (c =? ch)%N = false.
Proof.
  intros Hc. apply N.eqb_neq. intros ->. congruence.
Qed.

Lemma head_is_first_line s :
  Spec.head_is ch (hd [] (anchored_pieces s)) = Spec.head_is ch s.
Proof.
  unfold anchored_pieces.
  destruct s as [|c s]; [reflexivity|]. simpl.
  destruct (is_line_terminator c) eqn:Hc; simpl.
  - symmetry. now apply terminator_is_not_ch.
  - destruct (split_by_cons is_line_terminator s) as (l & ls & ->). reflexivity.
Qed.

Lemma count_from_lines s :
  count_from ch true s =
    length (filter (Spec.begins_with_single ch) (anchored_pieces s))
  /\ count_from ch false s =
    length (filter (Spec.begins_with_single ch) (tl (anchored_pieces s))).
Proof.
  induction s as [|c s [IHt IHf]]; [split; reflexivity|].
  pose proof (head_is_first_line s) as Hhd.
  unfold anchored_pieces in *. cbn [count_from split_by].
  destruct (is_line_terminator c) eqn:Hc.
  - cbn [tl filter Spec.begins_with_single andb].
    rewrite (terminator_is_not_ch c Hc). simpl. auto.
  - destruct (split_by_cons is_line_terminator s) as (l & ls & E).
    rewrite E in *. cbn [tl hd filter andb] in *.
    split; [|assumption].
    cbn [Spec.begins_with_single]. rewrite Hhd, IHf.
    destruct ((c =? ch)%N && negb (Spec.head_is ch s)); reflexivity.
Qed.

(** [(s.match(/^c(?!c)/gm) || []).length] counts the lines that begin
    with exactly one [c]. *)
Lemma count_matches_single s :
  CommitGen.count_matches (re_single ch) s = count_anchored_single ch s.
Proof.
  unfold CommitGen.count_matches, js_match_global, count_anchored_single.
  f_equal.
  rewrite <- (proj1 (count_from_lines s)).
  change true with (at_line_start []). rewrite <- match_all_count.
  destruct (match_all (re_single ch) [] s 0); reflexivity.
Qed.

End LineCountingProofs.

(* ================================================================= *)
(** ** Extracting the changed files *)

Section StatPath.

Lemma space_is_not_pipe c : is_space c = true -> (PIPE =? c)%N = false.
Proof.
  intros Hc. apply N.eqb_neq. intros <-. discriminate Hc.
Qed.

(** After [\s+] has taken its first code unit: the rest of the run, then
    [|]; giving back whitespace never helps. *)
Lemma star_then_pipe s : forall bef cap,
  option_map capture1 (star_loop is_space (r_char (N.eqb PIPE) Some) bef s cap)
  = if Spec.head_is PIPE (dropWhile is_space s) then Some cap else None.
Proof.
  induction s as [|c s IH]; intros bef cap; [reflexivity|].
  cbn [star_loop dropWhile].
  destruct (is_space c) eqn:Hc.
  - specialize (IH (c :: bef) cap).
    destruct (star_loop is_space (r_char (N.eqb PIPE) Some) (c :: bef) s cap).
    + exact IH.
    + rewrite <- IH. unfold r_char; cbn [after].
      now rewrite (space_is_not_pipe c Hc).
  - unfold r_char, Spec.head_is; cbn [after]. rewrite (N.eqb_sym c PIPE).
    destruct (PIPE =? c)%N; reflexivity.
Qed.

Lemma separator_attempt bef r cap :
  option_map capture1 (re_separator Some (MState bef r cap))
  = if Spec.separator_here r then Some cap else None.
Proof.
  unfold re_separator, r_plus, r_seq, r_char at 1, r_star.
  destruct r as [|c s]; [reflexivity|]. cbn [after before capture1].
  unfold Spec.separator_here. cbn [dropWhile].
  destruct (is_space c); [|reflexivity].
  apply star_then_pipe.
Qed.

Lemma consumed_since_app bef0 a c pre a' c' :
  consumed_since (MState bef0 a c) (MState (rev pre ++ bef0) a' c') = pre.
Proof.
  unfold consumed_since; cbn [before].
  replace (length (rev pre ++ bef0) - length bef0) with (length (rev pre))
    by (rewrite length_app; lia).
  rewrite firstn_app, firstn_all, Nat.sub_diag, app_nil_r. apply rev_involutive.
Qed.

Lemma lazy_capture st aft : forall pre cap,
  option_map capture1
    (lazy_loop is_dot (after_group st) (rev pre ++ before st) aft cap)
  = option_map (fun p => Some (pre ++ p)) (dot_path aft).
Proof.
  destruct st as [bef0 a0 c0]; cbn [before].
  induction aft as [|c s IH]; intros pre cap.
  - cbn [lazy_loop dot_path]. unfold after_group at 1. cbn [before after].
    reflexivity.
  - cbn [lazy_loop dot_path]. unfold after_group at 1. cbn [before after].
    rewrite consumed_since_app.
    match goal with
    | |- context [re_separator Some (MState ?b ?r ?o)] =>
        pose proof (separator_attempt b r o) as Hsep;
        destruct (re_separator Some (MState b r o))
    end.
    + destruct (Spec.separator_here (c :: s)); [|discriminate Hsep].
      cbn [option_map] in *. now rewrite app_nil_r.
    + destruct (Spec.separator_here (c :: s)); [discriminate Hsep|].
      destruct (is_dot c); [|reflexivity].
      specialize (IH (pre ++ [c]) cap).
      rewrite rev_app_distr in IH. cbn [rev app] in IH. rewrite IH.
      destruct (dot_path s); cbn [option_map]; [|reflexivity].
      now rewrite <- app_assoc.
Qed.

Lemma group_capture bef r cap :
  option_map capture1
    (r_group1 (r_plus_lazy is_dot) (re_separator Some) (MState bef r cap))
  = option_map Some (path_at r).
Proof.
  unfold r_group1, r_plus_lazy, r_seq, r_char, r_star_lazy.
  destruct r as [|c s]; [reflexivity|]. cbn [after before capture1 path_at].
  destruct (is_dot c); [|reflexivity].
  pose proof (lazy_capture (MState bef (c :: s) cap) s [c] cap) as H.
  cbn [rev app before] in H. unfold after_group in H. rewrite H.
  destruct (dot_path s); reflexivity.
Qed.

Lemma strip_capture line : forall bef cap,
  option_map capture1
    (star_loop is_space
       (r_seq (r_group1 (r_plus_lazy is_dot)) re_separator Some) bef line cap)
  = option_map Some (strip_then_path line).
Proof.
  unfold r_seq.
  induction line as [|c s IH]; intros bef cap.
  - cbn [star_loop strip_then_path]. apply group_capture.
  - cbn [star_loop strip_then_path].
    destruct (is_space c); [|apply group_capture].
    specialize (IH (c :: bef) cap).
    destruct (star_loop is_space _ (c :: bef) s cap).
    + destruct (strip_then_path s); [exact IH|discriminate IH].
    + destruct (strip_then_path s); [discriminate IH|apply group_capture].
Qed.

Lemma stat_attempt_at_start line :
  option_map capture1 (CommitGen.re_stat_path Some (MState [] line None))
  = option_map Some (strip_then_path line).
Proof. apply strip_capture. Qed.

(** Without the [m] flag [^] only fits at position 0. *)
Lemma stat_attempt_later b bef aft :
  CommitGen.re_stat_path Some (MState (b :: bef) aft None) = None.
Proof. reflexivity. Qed.

Lemma exec_loop_later aft : forall b bef,
  exec_loop CommitGen.re_stat_path (b :: bef) aft = None.
Proof.
  induction aft as [|c s IH]; intros b bef; cbn [exec_loop];
    rewrite stat_attempt_later; [reflexivity|apply IH].
Qed.

Lemma js_match_stat line :
  option_map m_1 (js_match CommitGen.re_stat_path line)
  = option_map Some (strip_then_path line).
Proof.
  unfold js_match. pose proof (stat_attempt_at_start line) as H.
  destruct line as [|c s]; cbn [exec_loop].
  - destruct (CommitGen.re_stat_path Some (MState [] [] None)); exact H.
  - destruct (CommitGen.re_stat_path Some (MState [] (c :: s) None)).
    + exact H.
    + rewrite exec_loop_later. exact H.
Qed.

(** Group 1 is not optional: every match has a [match[1]]. *)
Lemma stat_match_captures line m :
  js_match CommitGen.re_stat_path line = Some m -> m_1 m <> None.
Proof.
  intros Hm. pose proof (js_match_stat line) as H. rewrite Hm in H.
  cbn [option_map] in H. destruct (strip_then_path line); [|discriminate H].
  injection H as ->. discriminate.
Qed.

Lemma push_path_closed files line :
  CommitGen.push_path files line = files ++ captured line.
Proof.
  unfold CommitGen.push_path, captured.
  pose proof (js_match_stat line) as H.
  destruct (js_match CommitGen.re_stat_path line) as [m|];
    destruct (strip_then_path line); cbn [option_map] in H;
    try discriminate H.
  - injection H as ->. reflexivity.
  - now rewrite app_nil_r.
Qed.

Lemma fold_push_path lines : forall files,
  fold_left CommitGen.push_path lines files = files ++ flat_map captured lines.
Proof.
  induction lines as [|l ls IH]; intros files; cbn [fold_left flat_map].
  - now rewrite app_nil_r.
  - rewrite IH, push_path_closed. now rewrite <- app_assoc.
Qed.

End StatPath.

(* ================================================================= *)
(** ** The captured path against the specification's path *)

Section PathOfLine.

Lemma dot_path_before s : forall p,
  dot_path s = Some p -> Spec.before_separator s = Some p.
Proof.
  induction s as [|c s IH]; intros p; cbn [dot_path Spec.before_separator].
  - destruct (Spec.separator_here []); [auto|discriminate].
  - destruct (Spec.separator_here (c :: s)); [auto|].
    destruct (is_dot c); [|discriminate].
    destruct (dot_path s) as [q|]; [|discriminate].
    intros [= <-]. now rewrite (IH q eq_refl).
Qed.

Lemma before_dot_path s : forall p,
  Spec.before_separator s = Some p -> forallb is_dot p = true ->
  dot_path s = Some p.
Proof.
  induction s as [|c s IH]; intros p; cbn [dot_path Spec.before_separator].
  - destruct (Spec.separator_here []); [auto|discriminate].
  - destruct (Spec.separator_here (c :: s)); [auto|].
    destruct (Spec.before_separator s) as [q|]; [|discriminate].
    intros [= <-]. cbn [forallb]. intros [Hc Hq]%andb_true_iff.
    now rewrite Hc, (IH q eq_refl Hq).
Qed.

(** A capture that starts inside the leading whitespace needs the
    separator right there; otherwise the stripped line has a path too. *)
Lemma dot_path_some s : forall q,
  dot_path s = Some q ->
  Spec.path_of_line s <> None
  \/ Spec.head_is PIPE (dropWhile is_space s) = true.
Proof.
  unfold Spec.path_of_line.
  induction s as [|c s IH]; intros q; cbn [dot_path].
  - destruct (Spec.separator_here []) eqn:E; [discriminate E|discriminate].
  - destruct (Spec.separator_here (c :: s)) eqn:E.
    + intros _. right. unfold Spec.separator_here in E.
      now apply andb_true_iff in E.
    + destruct (is_dot c); [|discriminate].
      destruct (dot_path s) as [q'|] eqn:Hq; [|discriminate]. intros _.
      cbn [dropWhile]. destruct (is_space c) eqn:Hc; [now apply (IH q')|].
      left. cbn [Spec.before_separator]. rewrite E.
      now rewrite (dot_path_before s Hq).
Qed.

Lemma path_of_line_space c s :
  is_space c = true -> Spec.path_of_line (c :: s) = Spec.path_of_line s.
Proof.
  intros Hc. unfold Spec.path_of_line. cbn [dropWhile]. now rewrite Hc.
Qed.

Lemma path_of_line_start c s :
  is_space c = false ->
  Spec.path_of_line (c :: s) = option_map (cons c) (Spec.before_separator s).
Proof.
  intros Hc. unfold Spec.path_of_line. cbn [dropWhile]. rewrite Hc.
  cbn [Spec.before_separator]. unfold Spec.separator_here. now rewrite Hc.
Qed.

(** On a plain line the regular expression captures the path of the
    specification. *)
Lemma strip_then_path_plain line :
  Spec.plain_line line = true ->
  strip_then_path line = Spec.path_of_line line.
Proof.
  induction line as [|c s IH]; [reflexivity|].
  unfold Spec.plain_line in *. cbn [strip_then_path path_at].
  destruct (is_space c) eqn:Hc.
  - rewrite (path_of_line_space c s Hc). cbn [dropWhile]. rewrite Hc.
    intros Hplain. rewrite (IH Hplain).
    destruct (Spec.path_of_line s) as [p|] eqn:Hp; [reflexivity|].
    destruct (is_dot c); [|reflexivity].
    destruct (dot_path s) as [q|] eqn:Hq; [|reflexivity].
    destruct (dot_path_some s Hq) as [H|H]; [congruence|].
    rewrite H in Hplain. discriminate Hplain.
  - rewrite (path_of_line_start c s Hc). intros Hplain.
    destruct (Spec.before_separator s) as [p|] eqn:Hp; cbn [option_map] in *.
    + cbn [forallb] in Hplain. apply andb_true_iff in Hplain as [Hd Hall].
      now rewrite Hd, (before_dot_path s Hp Hall).
    + destruct (is_dot c); [|reflexivity].
      destruct (dot_path s) as [q|] eqn:Hq; [|reflexivity].
      rewrite (dot_path_before s Hq) in Hp. discriminate Hp.
Qed.

Lemma captured_plain lines :
  forallb Spec.plain_line lines = true ->
  flat_map captured lines = Spec.paths_of lines.
Proof.
  unfold Spec.paths_of.
  induction lines as [|l ls IH]; [reflexivity|].
  cbn [forallb flat_map]. intros [Hl Hls]%andb_true_iff.
  unfold captured at 1. now rewrite (strip_then_path_plain l Hl), (IH Hls).
Qed.

Lemma files_of_analyze staged unstaged diff :
  filesChanged (CommitGen.analyze staged unstaged diff)
  = flat_map captured (split_LF staged).
Proof.
  unfold CommitGen.analyze; cbn [filesChanged].
  destruct staged as [|c s]; [reflexivity|]. cbn [nonempty].
  now rewrite fold_push_path.
Qed.

End PathOfLine.

(* ================================================================= *)
(** ** Whitespace and trimming *)

Section Trimming.

Lemma dropWhile_nil p s : dropWhile p s = [] <-> forallb p s = true.
Proof.
  induction s as [|c s IH]; cbn [dropWhile forallb]; [tauto|].
  destruct (p c); cbn [andb]; [exact IH|]. split; discriminate.
Qed.

Lemma dropWhile_keeps p s c t :
  dropWhile p s = c :: t -> p c = false /\ exists pre, s = pre ++ c :: t.
Proof.
  induction s as [|d s IH]; cbn [dropWhile]; [discriminate|].
  destruct (p d) eqn:Hd.
  - intros H. destruct (IH H) as [Hc [pre ->]]. split; [exact Hc|].
    now exists (d :: pre).
  - intros [= -> ->]. split; [exact Hd|]. now exists [].
Qed.

Lemma forallb_rev p (s : jsstring) : forallb p (rev s) = forallb p s.
Proof.
  induction s as [|c s IH]; [reflexivity|].
  cbn [rev forallb]. rewrite forallb_app, IH. cbn [forallb].
  rewrite andb_true_r. apply andb_comm.
Qed.

(** Trimming leaves nothing exactly when the string is all whitespace. *)
Lemma trim_nil s : trim s = [] <-> forallb is_space s = true.
Proof.
  unfold trim, trimEnd, trimStart.
  rewrite <- (rev_involutive []) at 1. cbn [rev].
  split.
  - intros H. apply (f_equal (@rev cu)) in H.
    rewrite rev_involutive in H. cbn [rev] in H.
    apply dropWhile_nil in H. rewrite forallb_rev in H.
    destruct (dropWhile is_space s) as [|c t] eqn:E.
    + now apply dropWhile_nil.
    + apply dropWhile_keeps in E as [Hc _].
      cbn [forallb] in H. rewrite Hc in H. discriminate H.
  - intros H. apply dropWhile_nil in H. now rewrite H.
Qed.

Lemma nonempty_true (s : jsstring) : nonempty s = true <-> s <> [].
Proof. destruct s; cbn; split; congruence. Qed.

End Trimming.

(* ================================================================= *)
(** ** Input without the markers *)

Section Degenerate.











End Degenerate.

(* ================================================================= *)
(** ** The change analyzer *)

Section Analyzer.

Lemma additions_of_analyze staged unstaged diff :
  additions (CommitGen.analyze staged unstaged diff)
  = count_anchored_single PLUS diff.
Proof. apply (count_matches_single PLUS). reflexivity. Qed.

Lemma deletions_of_analyze staged unstaged diff :
  deletions (CommitGen.analyze staged unstaged diff)
  = count_anchored_single MINUS diff.
Proof. apply (count_matches_single MINUS). reflexivity. Qed.

(** [exec] swallows the exception of [execSync]. *)
Lemma exec_normal execSync cmd :
  CommitGen.exec execSync cmd =
  Normal match execSync cmd with
         | Normal out => trim out
         | Throw _ => []
         end.
Proof.
  unfold CommitGen.exec. destruct (execSync cmd); reflexivity.
Qed.

Lemma analyzeChanges_normal execSync :
  CommitGen.analyzeChanges execSync =
  Normal (CommitGen.analyze
    match execSync (lit "git diff --cached --stat") with
    | Normal out => trim out | Throw _ => [] end
    match execSync (lit "git diff --stat") with
    | Normal out => trim out | Throw _ => [] end
    match execSync (lit "git diff --cached") with
    | Normal out => trim out | Throw _ => [] end).
Proof.
  unfold CommitGen.analyzeChanges, CommitGen.getStagedChanges,
    CommitGen.getTrackedChanges, CommitGen.getStagedDiff.
  now rewrite !exec_normal.
Qed.

Lemma split_by_ext p q s :
  (forall c, In c s -> p c = q c) -> split_by p s = split_by q s.
Proof.
  induction s as [|c s IH]; [reflexivity|]. intros H. cbn [split_by].
  rewrite (H c) by now left. rewrite IH by (intros d Hd; apply H; now right).
  reflexivity.
Qed.

(** In a text whose only line terminators are line feeds, the lines of
    the regular expression are those of [split("\n")]. *)
Lemma anchored_pieces_LF s :
  (forall c, In c s -> is_line_terminator c = true -> c = LF) ->
  anchored_pieces s = split_LF s.
Proof.
  intros H. apply split_by_ext. intros c Hc.
  destruct (is_line_terminator c) eqn:E.
  - rewrite (H c Hc E). reflexivity.
  - symmetry. apply N.eqb_neq. intros ->. discriminate E.
Qed.

End Analyzer.

(* ================================================================= *)
(** ** The rule-based suggesters *)

Section Suggesters.

Variable inferFeatureType : list jsstring -> jsstring.
Variable inferScope : list jsstring -> jsstring.

Lemma size_feat_code (a : GitAnalysis) :
  (additions a >? deletions a * 2)%Z && (additions a >? 20)%Z = Spec.size_feat a.
Proof. unfold Spec.size_feat. now rewrite Z.mul_comm. Qed.

Lemma size_refactor_code (a : GitAnalysis) :
  (deletions a >? additions a * 2)%Z && (deletions a >? 20)%Z
  = Spec.size_refactor a.
Proof. unfold Spec.size_refactor. now rewrite Z.mul_comm. Qed.

(** The accumulation by [push] is the ordered list of rules. *)
Lemma collected_closed a :
  CommitGen.collected a
  = or_else (Spec.fired a orchestrator_rules) orchestrator_generic.
Proof.
  unfold CommitGen.collected. rewrite size_feat_code, size_refactor_code.
  unfold Spec.fired, Spec.conditions, orchestrator_rules, CommitGen.push_if.
  destruct (Spec.size_feat a), (Spec.size_refactor a),
    (CommitGen.hasTests (filesChanged a)), (CommitGen.hasDocs (filesChanged a)),
    (CommitGen.hasConfig (filesChanged a)); reflexivity.
Qed.

Lemma provider_closed a :
  VercelGoogleProvider.getFallbackSuggestions inferFeatureType inferScope a
  = or_else (Spec.fired a (provider_rules inferFeatureType inferScope (filesChanged a)))
            (provider_generic inferScope (filesChanged a)).
Proof.
  unfold VercelGoogleProvider.getFallbackSuggestions.
  rewrite size_feat_code, size_refactor_code.
  change VercelGoogleProvider.hasTests with CommitGen.hasTests.
  change VercelGoogleProvider.hasDocs with CommitGen.hasDocs.
  change VercelGoogleProvider.hasConfig with CommitGen.hasConfig.
  unfold Spec.fired, Spec.conditions, provider_rules,
    VercelGoogleProvider.push_if.
  destruct (Spec.size_feat a), (Spec.size_refactor a),
    (CommitGen.hasTests (filesChanged a)), (CommitGen.hasDocs (filesChanged a)),
    (CommitGen.hasConfig (filesChanged a)); reflexivity.
Qed.

Lemma size_rules_exclusive a :
  Spec.size_feat a && Spec.size_refactor a = false.
Proof.
  unfold Spec.size_feat, Spec.size_refactor.
  destruct (Z.gtb_spec (additions a) (2 * deletions a)),
           (Z.gtb_spec (additions a) 20),
           (Z.gtb_spec (deletions a) (2 * additions a)),
           (Z.gtb_spec (deletions a) 20); cbn; try reflexivity; lia.
Qed.

Lemma map_fired {A B} (f : A -> B) a (xs : list A) :
  map f (Spec.fired a xs) = Spec.fired a (map f xs).
Proof.
  unfold Spec.fired. generalize (Spec.conditions a) as cs.
  intros cs; revert xs; induction cs as [|c cs IH]; intros [|x xs];
    try reflexivity.
  cbn [combine map filter fst]. destruct c; cbn [map snd]; now rewrite IH.
Qed.

Lemma rule_types_orchestrator : map type orchestrator_rules = Spec.rule_types.
Proof. reflexivity. Qed.

Lemma rule_types_provider files :
  map type (provider_rules inferFeatureType inferScope files) = Spec.rule_types.
Proof. reflexivity. Qed.

(** The two size rules exclude each other: at most four rules fire. *)
Lemma fired_at_most_4 {A} a (x1 x2 x3 x4 x5 : A) :
  length (Spec.fired a [x1; x2; x3; x4; x5]) <= 4.
Proof.
  pose proof (size_rules_exclusive a) as Hex.
  unfold Spec.fired, Spec.conditions.
  destruct (Spec.size_feat a), (Spec.size_refactor a); try discriminate Hex;
    destruct (CommitGen.hasTests (filesChanged a)),
      (CommitGen.hasDocs (filesChanged a)),
      (CommitGen.hasConfig (filesChanged a)); cbn; lia.
Qed.

Lemma fired_nil_conditions {A} a (x1 x2 x3 x4 x5 : A) :
  Spec.fired a [x1; x2; x3; x4; x5] = [] <->
  Spec.conditions a = [false; false; false; false; false].
Proof.
  unfold Spec.fired, Spec.conditions.
  destruct (Spec.size_feat a), (Spec.size_refactor a),
    (CommitGen.hasTests (filesChanged a)),
    (CommitGen.hasDocs (filesChanged a)),
    (CommitGen.hasConfig (filesChanged a)); cbn; split; congruence.
Qed.

Lemma fired_types_nil {A} a (x1 x2 x3 x4 x5 : A) :
  Spec.fired a [x1; x2; x3; x4; x5] = [] <-> Spec.fired_types a = [].
Proof.
  unfold Spec.fired_types, Spec.rule_types. now rewrite !fired_nil_conditions.
Qed.

Lemma fired_size_feat {A} a (x : A) xs :
  Spec.size_feat a = true ->
  exists rest, Spec.fired a (x :: xs) = x :: rest.
Proof.
  unfold Spec.fired, Spec.conditions. intros ->. cbn. eauto.
Qed.

Lemma slice0_short {A} n (l : list A) : length l <= n -> slice0 n l = l.
Proof. apply firstn_all2. Qed.

Lemma or_else_length {A} (l fb : list A) :
  fb <> [] -> 1 <= length (or_else l fb).
Proof.
  destruct l; cbn; [|lia]. destruct fb; [congruence|cbn; lia].
Qed.

Lemma collected_length a :
  1 <= length (CommitGen.collected a) <= 4.
Proof.
  rewrite collected_closed. split; [now apply or_else_length|].
  pose proof (fired_at_most_4 a
    (message (lit "feat") (lit "add new feature"))
    (message (lit "refactor") (lit "remove unused code"))
    (message (lit "test") (lit "add tests"))
    (message (lit "docs") (lit "update documentation"))
    (message (lit "chore") (lit "update configuration"))) as H.
  fold orchestrator_rules in H.
  destruct (Spec.fired a orchestrator_rules); cbn in *; lia.
Qed.

Lemma orchestrator_is_collected a :
  CommitGen.getFallbackSuggestions a = CommitGen.collected a.
Proof.
  apply slice0_short. pose proof (collected_length a). lia.
Qed.

Lemma provider_length a :
  1 <= length (VercelGoogleProvider.getFallbackSuggestions
                 inferFeatureType inferScope a) <= 4.
Proof.
  rewrite provider_closed. split; [now apply or_else_length|].
  pose proof (fired_at_most_4 a
    (scoped_message (lit "feat")
       (lit "add " ++ inferFeatureType (filesChanged a))
       (inferScope (filesChanged a)))
    (message (lit "refactor")
       (lit "remove unused " ++ inferFeatureType (filesChanged a)))
    (message (lit "test") (lit "add tests for " ++ inferScope (filesChanged a)))
    (message (lit "docs") (lit "update documentation"))
    (message (lit "chore") (lit "update configuration"))) as H.
  fold (provider_rules inferFeatureType inferScope (filesChanged a)) in H.
  destruct (Spec.fired a (provider_rules inferFeatureType inferScope (filesChanged a))); cbn in *; lia.
Qed.

Lemma orchestrator_types a :
  Spec.fired_types a <> [] ->
  map type (CommitGen.getFallbackSuggestions a) = Spec.fired_types a.
Proof.
  intros H. rewrite orchestrator_is_collected, collected_closed.
  unfold Spec.fired_types. rewrite <- rule_types_orchestrator, <- map_fired.
  destruct (Spec.fired a orchestrator_rules) eqn:E; [|reflexivity].
  apply fired_types_nil in E. contradiction.
Qed.

Lemma provider_types a :
  Spec.fired_types a <> [] ->
  map type (VercelGoogleProvider.getFallbackSuggestions
              inferFeatureType inferScope a) = Spec.fired_types a.
Proof.
  intros H. rewrite provider_closed.
  unfold Spec.fired_types.
  rewrite <- (rule_types_provider (filesChanged a)), <- map_fired.
  destruct (Spec.fired a (provider_rules inferFeatureType inferScope (filesChanged a))) eqn:E;
    [|reflexivity].
  apply fired_types_nil in E. contradiction.
Qed.

Lemma fired_types_length a : length (Spec.fired_types a) <= 4.
Proof. apply fired_at_most_4. Qed.

End Suggesters.

(* ================================================================= *)
(** ** Properties of the change analyzer *)

(** The two counts are those of the pieces [^] delimits with the [m]
    flag. *)
Lemma additions_deletions_count_anchored staged unstaged diff :
  additions (CommitGen.analyze staged unstaged diff)
    = count_anchored_single PLUS diff
  /\ deletions (CommitGen.analyze staged unstaged diff)
    = count_anchored_single MINUS diff.
Proof.
  split; [apply additions_of_analyze|apply deletions_of_analyze].
Qed.

Section LinesOfTheDiff.

Variable ch : cu.
Hypothesis ch_not_LF : (ch =? LF)%N = false.

Lemma count_matches_count_from s :
  CommitGen.count_matches (re_single ch) s = Z.of_nat (count_from ch true s).
Proof.
  unfold CommitGen.count_matches, js_match_global. f_equal.
  change true with (at_line_start []). rewrite <- match_all_count.
  destruct (match_all (re_single ch) [] s 0); reflexivity.
Qed.

Lemma is_line_terminator_split c :
  is_line_terminator c = (c =? LF)%N || Spec.is_other_terminator c.
Proof.
  unfold is_line_terminator, Spec.is_other_terminator.
  now rewrite <- !orb_assoc.
Qed.

(** Where no [ch] follows a CR, U+2028 or U+2029, only the start of the
    text and the line feeds start a match. *)
Lemma count_from_only_LF s : forall b1 b2 o,
  b1 = b2 || o ->
  Spec.no_start_after_other ch o s = true ->
  count_from ch b1 s = count_from_LF ch b2 s.
Proof.
  induction s as [|c s IH]; intros b1 b2 o Hb Hs; [reflexivity|].
  cbn [count_from count_from_LF Spec.no_start_after_other] in *.
  apply andb_true_iff in Hs as [Hc Hs].
  rewrite (IH (is_line_terminator c) (c =? LF)%N (Spec.is_other_terminator c)
             (is_line_terminator_split c) Hs).
  f_equal. subst b1. destruct b2; [reflexivity|]. cbn [orb andb].
  destruct o; [|reflexivity]. cbn [andb negb] in Hc.
  cbn [Spec.begins_with_single].
  destruct (c =? ch)%N; [discriminate Hc|reflexivity].
Qed.

Lemma head_is_first_LF_line s :
  Spec.head_is ch (hd [] (split_LF s)) = Spec.head_is ch s.
Proof.
  unfold split_LF. destruct s as [|c s]; [reflexivity|]. cbn [split_by].
  destruct (N.eqb_spec c LF) as [->|Hc]; cbn [hd Spec.head_is].
  - rewrite N.eqb_sym. now rewrite ch_not_LF.
  - destruct (split_by_cons (fun c => (c =? LF)%N) s) as (l & ls & ->).
    reflexivity.
Qed.

Lemma count_from_LF_lines s :
  count_from_LF ch true s
    = length (filter (Spec.begins_with_single ch) (split_LF s))
  /\ count_from_LF ch false s
    = length (filter (Spec.begins_with_single ch) (tl (split_LF s))).
Proof.
  induction s as [|c s [IHt IHf]]; [split; reflexivity|].
  pose proof (head_is_first_LF_line s) as Hhd.
  unfold split_LF in *. cbn [count_from_LF split_by].
  destruct (N.eqb_spec c LF) as [->|Hc].
  - cbn [tl filter Spec.begins_with_single andb].
    rewrite (N.eqb_sym LF ch), ch_not_LF. cbn [andb]. auto.
  - destruct (split_by_cons (fun c => (c =? LF)%N) s) as (l & ls & E).
    rewrite E in *. cbn [tl hd filter andb] in *.
    split; [|assumption].
    cbn [Spec.begins_with_single]. rewrite Hhd, IHf.
    destruct ((c =? ch)%N && negb (Spec.head_is ch s)); reflexivity.
Qed.

(** In such a diff the matches of [/^c(?!c)/gm] are the lines that
    begin with exactly one [c]. *)
Lemma count_matches_LF_lines s :
  Spec.starts_only_after_LF ch s = true ->
  CommitGen.count_matches (re_single ch) s = Spec.count_lines_single ch s.
Proof.
  intros Hs. rewrite count_matches_count_from.
  unfold Spec.count_lines_single, Spec.lines. f_equal.
  rewrite <- (proj1 (count_from_LF_lines s)).
  exact (@count_from_only_LF s true true false eq_refl Hs).
Qed.

End LinesOfTheDiff.

(** C1, as stated, fails: in the diff "a\r+b" no line begins with [+],
    yet [additions] is 1, the carriage return starting a line for [^]
    with the [m] flag. *)
Lemma carriage_return_counted_as_line_start :
  additions (CommitGen.analyze [] [] (lit "a" ++ [CR] ++ lit "+b")) = 1%Z
  /\ Spec.lines (lit "a" ++ [CR] ++ lit "+b") = [lit "a" ++ [CR] ++ lit "+b"]
  /\ Spec.count_lines_single PLUS (lit "a" ++ [CR] ++ lit "+b") = 0%Z
  /\ additions (CommitGen.analyze [] [] (lit "a" ++ [CR] ++ lit "+b"))
     <> Spec.count_lines_single PLUS (lit "a" ++ [CR] ++ lit "+b").
Proof.
  split; [reflexivity|]. split; [reflexivity|]. split; [reflexivity|].
  vm_compute. discriminate.
Qed.

(** C1, amended: for every diff text in which no [+] stands right after
    a carriage return, U+2028 or U+2029, [additions] is the number of
    lines that begin with exactly one [+], and likewise [deletions] for
    [-]; the lines are those between line feeds, the headers [+++] and
    [---] are not counted, and the diff "+++ a\n+foo\n-bar\n--- b\n"
    gives 1 and 1. *)
Theorem additions_deletions_count_lines_of_diff :
  (forall staged unstaged diff,
     (Spec.starts_only_after_LF PLUS diff = true ->
      additions (CommitGen.analyze staged unstaged diff)
      = Spec.count_lines_single PLUS diff)
     /\ (Spec.starts_only_after_LF MINUS diff = true ->
         deletions (CommitGen.analyze staged unstaged diff)
         = Spec.count_lines_single MINUS diff))
  /\ additions (CommitGen.analyze [] [] Examples.spec_diff) = 1%Z
  /\ deletions (CommitGen.analyze [] [] Examples.spec_diff) = 1%Z.
Proof.
  split; [|split; reflexivity].
  intros staged unstaged diff. split; intros Hplain.
  - apply (count_matches_LF_lines PLUS); [reflexivity|exact Hplain].
  - apply (count_matches_LF_lines MINUS); [reflexivity|exact Hplain].
Qed.

Lemma additions_deletions_of_crlf_diff :
  Spec.starts_only_after_LF PLUS
    (lit "+++ b/x" ++ [CR; LF] ++ lit "+one" ++ [CR; LF] ++ lit "-two" ++ [CR; LF])
    = true
  /\ additions (CommitGen.analyze [] []
       (lit "+++ b/x" ++ [CR; LF] ++ lit "+one" ++ [CR; LF] ++ lit "-two" ++ [CR; LF]))
     = Spec.count_lines_single PLUS
         (lit "+++ b/x" ++ [CR; LF] ++ lit "+one" ++ [CR; LF] ++ lit "-two" ++ [CR; LF])
  /\ Spec.starts_only_after_LF MINUS
       (lit "+++ b/x" ++ [CR; LF] ++ lit "+one" ++ [CR; LF] ++ lit "-two" ++ [CR; LF])
     = true
  /\ deletions (CommitGen.analyze [] []
       (lit "+++ b/x" ++ [CR; LF] ++ lit "+one" ++ [CR; LF] ++ lit "-two" ++ [CR; LF]))
     = Spec.count_lines_single MINUS
         (lit "+++ b/x" ++ [CR; LF] ++ lit "+one" ++ [CR; LF] ++ lit "-two" ++ [CR; LF])
  /\ Spec.count_lines_single PLUS
       (lit "+++ b/x" ++ [CR; LF] ++ lit "+one" ++ [CR; LF] ++ lit "-two" ++ [CR; LF])
     = 1%Z.
Proof.
  destruct additions_deletions_count_lines_of_diff as [H _].
  destruct (H [] []
    (lit "+++ b/x" ++ [CR; LF] ++ lit "+one" ++ [CR; LF] ++ lit "-two" ++ [CR; LF]))
    as [Hadd Hdel].
  split; [reflexivity|]. split; [apply Hadd; reflexivity|].
  split; [reflexivity|]. split; [apply Hdel; reflexivity|reflexivity].
Defined.

(** With line feeds as the only line terminators of the diff, these are
    the lines of [split("\n")]. *)
Lemma additions_count_LF_lines staged unstaged diff :
  (forall c, In c diff -> is_line_terminator c = true -> c = LF) ->
  additions (CommitGen.analyze staged unstaged diff)
  = Z.of_nat (length (filter (Spec.begins_with_single PLUS) (split_LF diff))).
Proof.
  intros H. rewrite additions_of_analyze. unfold count_anchored_single.
  now rewrite (anchored_pieces_LF diff H).
Qed.

(** A carriage return alone ends a line for [^] with the [m] flag. *)
Lemma carriage_return_starts_a_line :
  additions (CommitGen.analyze [] [] (lit "a" ++ [CR] ++ lit "+b")) = 1%Z.
Proof. reflexivity. Qed.

(** C6, as stated, fails: of the three lines "x | 1", "  |" and
    "a\rb | 2" the analyzer extracts "x" and a single space, where the
    paths before the separator are "x" and "a\rb". *)
Lemma odd_stat_lines_extracted_differently :
  filesChanged (CommitGen.analyze Examples.stat_odd_lines [] [])
    = [lit "x"; lit " "]
  /\ Spec.paths_of (split_LF Examples.stat_odd_lines)
    = [lit "x"; lit "a" ++ [CR] ++ lit "b"]
  /\ filesChanged (CommitGen.analyze Examples.stat_odd_lines [] [])
    <> Spec.paths_of (split_LF Examples.stat_odd_lines).
Proof.
  split; [reflexivity|]. split; [reflexivity|].
  vm_compute. discriminate.
Qed.

(** C6, amended: when every line of the stat text is plain (no CR,
    U+2028 or U+2029 inside a path, no pathless line with [|] right
    after its leading whitespace), [filesChanged] holds, in line order,
    exactly the paths of the lines of the shape "path | changes": what
    stands before the first run of whitespace followed by [|], leading
    whitespace stripped; the other lines contribute nothing. *)
Theorem filesChanged_are_paths_of_plain_lines :
  forall staged unstaged diff,
    forallb Spec.plain_line (split_LF staged) = true ->
    filesChanged (CommitGen.analyze staged unstaged diff)
    = Spec.paths_of (split_LF staged).
Proof.
  intros staged unstaged diff Hplain.
  rewrite files_of_analyze. now apply captured_plain.
Qed.

Lemma filesChanged_two_files :
  forallb Spec.plain_line (split_LF Examples.stat_two_files) = true
  /\ filesChanged (CommitGen.analyze Examples.stat_two_files [] [])
     = Spec.paths_of (split_LF Examples.stat_two_files)
  /\ Spec.paths_of (split_LF Examples.stat_two_files)
     = [lit "src/index.ts"; lit "README.md"].
Proof.
  split; [reflexivity|]. split; [|reflexivity].
  apply (filesChanged_are_paths_of_plain_lines Examples.stat_two_files [] []).
  reflexivity.
Defined.




(** C8: [hasStaged] is true exactly when the stat output is not empty
    after trimming; on stat output that is all whitespace it is false. *)
Theorem hasStaged_iff_stat_nonblank :
  forall execSync out,
    execSync (lit "git diff --cached --stat") = Normal out ->
    exists g,
      CommitGen.analyzeChanges execSync = Normal g
      /\ (hasStaged g = true <-> trim out <> [])
      /\ (hasStaged g = false <-> forallb is_space out = true).
Proof.
  intros execSync out Hout. eexists.
  split; [apply analyzeChanges_normal|].
  rewrite Hout. cbn [hasStaged CommitGen.analyze].
  split; [apply nonempty_true|].
  rewrite <- trim_nil. destruct (trim out); cbn; split; congruence.
Qed.

Lemma hasStaged_false_on_blank_stat :
  Examples.always (lit "   " ++ [LF]) (lit "git diff --cached --stat")
    = Normal (lit "   " ++ [LF])
  /\ exists g,
      CommitGen.analyzeChanges (Examples.always (lit "   " ++ [LF])) = Normal g
      /\ (hasStaged g = true <-> trim (lit "   " ++ [LF]) <> [])
      /\ (hasStaged g = false <-> forallb is_space (lit "   " ++ [LF]) = true).
Proof.
  split; [reflexivity|].
  apply (hasStaged_iff_stat_nonblank (Examples.always (lit "   " ++ [LF]))).
  reflexivity.
Defined.

(** C10: an analysis with a file in [filesChanged] has [hasStaged]
    true, for the analysis of any three texts and so for every analysis
    [analyzeChanges] returns. *)
Theorem files_changed_imply_staged :
  (forall staged unstaged diff,
     filesChanged (CommitGen.analyze staged unstaged diff) <> [] ->
     hasStaged (CommitGen.analyze staged unstaged diff) = true)
  /\ (forall execSync g,
     CommitGen.analyzeChanges execSync = Normal g ->
     filesChanged g <> [] -> hasStaged g = true).
Proof.
  assert (H : forall staged unstaged diff,
     filesChanged (CommitGen.analyze staged unstaged diff) <> [] ->
     hasStaged (CommitGen.analyze staged unstaged diff) = true).
  { intros staged unstaged diff. unfold CommitGen.analyze.
    cbn [filesChanged hasStaged]. destruct (nonempty staged); congruence. }
  split; [exact H|].
  intros execSync g. rewrite analyzeChanges_normal. intros [= <-]. apply H.
Qed.

Lemma two_files_imply_staged :
  filesChanged (CommitGen.analyze Examples.stat_two_files [] []) <> []
  /\ hasStaged (CommitGen.analyze Examples.stat_two_files [] []) = true.
Proof.
  assert (Hfiles :
    filesChanged (CommitGen.analyze Examples.stat_two_files [] []) <> [])
    by (vm_compute; discriminate).
  split; [exact Hfiles|].
  exact (proj1 files_changed_imply_staged Examples.stat_two_files [] [] Hfiles).
Defined.

(* ================================================================= *)
(** ** Properties of the rule-based suggesters *)

(** C2: both suggesters return between 1 and 5 candidates; the
    orchestrator's list is its accumulated list cut to 5, a cut that
    changes nothing in the provider's list either; and unless no rule
    matches, the types of the candidates are those of the matching
    rules, one each, in the order feat, refactor, test, docs, chore. *)
Theorem suggestions_between_one_and_five :
  forall inferFeatureType inferScope a,
    1 <= length (CommitGen.getFallbackSuggestions a) <= 5
    /\ 1 <= length (VercelGoogleProvider.getFallbackSuggestions
                     inferFeatureType inferScope a) <= 5
    /\ CommitGen.getFallbackSuggestions a = slice0 5 (CommitGen.collected a)
    /\ slice0 5 (VercelGoogleProvider.getFallbackSuggestions
                   inferFeatureType inferScope a)
       = VercelGoogleProvider.getFallbackSuggestions
           inferFeatureType inferScope a
    /\ (Spec.fired_types a = []
        \/ map type (CommitGen.getFallbackSuggestions a)
             = slice0 5 (Spec.fired_types a)
           /\ map type (VercelGoogleProvider.getFallbackSuggestions
                          inferFeatureType inferScope a)
             = slice0 5 (Spec.fired_types a)).
Proof.
  intros iF iS a.
  pose proof (collected_length a) as Hc.
  pose proof (provider_length iF iS a) as Hp.
  pose proof (fired_types_length a) as Hf.
  rewrite orchestrator_is_collected.
  split; [lia|]. split; [lia|]. split; [symmetry; apply slice0_short; lia|].
  split; [apply slice0_short; lia|].
  assert (Hdec : Spec.fired_types a = [] \/ Spec.fired_types a <> [])
    by (destruct (Spec.fired_types a); [left|right]; congruence).
  destruct Hdec as [Hnil|Hne]; [now left|right].
  rewrite slice0_short by lia.
  rewrite <- orchestrator_is_collected.
  split; [now apply orchestrator_types|now apply provider_types].
Qed.




(** C4, as stated, fails for the orchestrator: for 45 additions, 12
    deletions and the file src/components/Button.tsx its only candidate
    is a feat with the fixed subject and no scope. *)
Lemma orchestrator_feat_has_no_scope :
  CommitGen.getFallbackSuggestions Examples.button_analysis
    = [mkCommitMessage (lit "feat") None (lit "add new feature") None None]
  /\ ~ (exists m,
          In m (CommitGen.getFallbackSuggestions Examples.button_analysis)
          /\ type m = lit "feat" /\ scope m <> None).
Proof.
  split; [reflexivity|].
  intros (m & [<-|[]] & _ & Hs). apply Hs. reflexivity.
Qed.

(** C4, amended: when additions > 2 * deletions and additions > 20 both
    suggesters put a feat candidate first; the provider's has the
    subject "add " followed by [inferFeatureType filesChanged] and the
    scope [inferScope filesChanged], the orchestrator's the fixed
    subject "add new feature" and no scope. *)
Theorem size_rule_puts_feat_first :
  forall inferFeatureType inferScope a,
    (additions a > 2 * deletions a)%Z ->
    (additions a > 20)%Z ->
    (exists rest,
       VercelGoogleProvider.getFallbackSuggestions inferFeatureType inferScope a
       = mkCommitMessage (lit "feat") (Some (inferScope (filesChanged a)))
           (lit "add " ++ inferFeatureType (filesChanged a)) None None
         :: rest)
    /\ (exists rest,
       CommitGen.getFallbackSuggestions a
       = mkCommitMessage (lit "feat") None (lit "add new feature") None None
         :: rest).
Proof.
  intros iF iS a H2 H20.
  assert (Hfeat : Spec.size_feat a = true).
  { unfold Spec.size_feat. apply andb_true_iff. split; apply Z.gtb_lt; lia. }
  split.
  - rewrite provider_closed. unfold provider_rules.
    match goal with
    | |- context [Spec.fired a (?x :: ?xs)] =>
        destruct (fired_size_feat a x xs Hfeat) as [rest ->]
    end.
    cbn [or_else]. eauto.
  - rewrite orchestrator_is_collected, collected_closed.
    unfold orchestrator_rules.
    match goal with
    | |- context [Spec.fired a (?x :: ?xs)] =>
        destruct (fired_size_feat a x xs Hfeat) as [rest ->]
    end.
    cbn [or_else]. eauto.
Qed.

Lemma size_rule_on_button :
  (45 > 2 * 12)%Z /\ (45 > 20)%Z
  /\ (exists rest,
       VercelGoogleProvider.getFallbackSuggestions
         (fun _ => lit "feature") (fun _ => lit "ui") Examples.button_analysis
       = mkCommitMessage (lit "feat") (Some (lit "ui"))
           (lit "add " ++ lit "feature") None None :: rest)
  /\ (exists rest,
       CommitGen.getFallbackSuggestions Examples.button_analysis
       = mkCommitMessage (lit "feat") None (lit "add new feature") None None
         :: rest).
Proof.
  split; [lia|]. split; [lia|].
  apply (size_rule_puts_feat_first (fun _ => lit "feature") (fun _ => lit "ui")
           Examples.button_analysis); cbn; lia.
Defined.

(** C5, as stated, fails for the orchestrator: on an analysis where no
    rule matches it returns three generic candidates, not one. *)
Lemma orchestrator_generic_is_three :
  Spec.conditions Examples.small_analysis = [false; false; false; false; false]
  /\ CommitGen.getFallbackSuggestions Examples.small_analysis
     = [ mkCommitMessage (lit "feat") None (lit "add feature") None None;
         mkCommitMessage (lit "fix") None (lit "fix issue") None None;
         mkCommitMessage (lit "refactor") None (lit "refactor code") None None ]
  /\ ~ (exists m, CommitGen.getFallbackSuggestions Examples.small_analysis = [m]).
Proof.
  split; [reflexivity|]. split; [reflexivity|].
  intros [m H]. discriminate H.
Qed.

(** C5, amended: when none of rules 1 to 5 matches, the provider
    returns exactly one candidate, a feat with the subject "update "
    followed by [inferScope filesChanged], and the orchestrator exactly
    three generic candidates: feat, fix and refactor. *)
Theorem no_rule_gives_generic_candidates :
  forall inferFeatureType inferScope a,
    Spec.conditions a = [false; false; false; false; false] ->
    VercelGoogleProvider.getFallbackSuggestions inferFeatureType inferScope a
    = [ mkCommitMessage (lit "feat") None
          (lit "update " ++ inferScope (filesChanged a)) None None ]
    /\ CommitGen.getFallbackSuggestions a
    = [ mkCommitMessage (lit "feat") None (lit "add feature") None None;
        mkCommitMessage (lit "fix") None (lit "fix issue") None None;
        mkCommitMessage (lit "refactor") None (lit "refactor code") None None ].
Proof.
  intros iF iS a Hnone. split.
  - rewrite provider_closed. unfold provider_rules.
    now rewrite (proj2 (fired_nil_conditions a _ _ _ _ _) Hnone).
  - rewrite orchestrator_is_collected, collected_closed.
    unfold orchestrator_rules.
    now rewrite (proj2 (fired_nil_conditions a _ _ _ _ _) Hnone).
Qed.

Lemma no_rule_on_small_change :
  Spec.conditions Examples.small_analysis = [false; false; false; false; false]
  /\ VercelGoogleProvider.getFallbackSuggestions
       (fun _ => lit "feature") (fun _ => lit "ui") Examples.small_analysis
     = [ mkCommitMessage (lit "feat") None (lit "update " ++ lit "ui") None None ]
  /\ CommitGen.getFallbackSuggestions Examples.small_analysis
     = [ mkCommitMessage (lit "feat") None (lit "add feature") None None;
         mkCommitMessage (lit "fix") None (lit "fix issue") None None;
         mkCommitMessage (lit "refactor") None (lit "refactor code") None None ].
Proof.
  split; [reflexivity|].
  apply (@no_rule_gives_generic_candidates
           (fun _ => lit "feature") (fun _ => lit "ui") Examples.small_analysis).
  reflexivity.
Defined.

(** C9: with non-negative counts the feat and the refactor size rules
    never match together; the orchestrator has accumulated either one
    candidate per matching rule, at most 4, or, when no rule matches,
    exactly the 3 generic ones; and the slice to 5 drops nothing. *)
Theorem size_rules_exclusive_and_slice_keeps_all :
  forall a,
    (0 <= additions a)%Z ->
    (0 <= deletions a)%Z ->
    ~ ((additions a > 2 * deletions a)%Z /\ (additions a > 20)%Z
       /\ (deletions a > 2 * additions a)%Z /\ (deletions a > 20)%Z)
    /\ (Spec.fired_types a <> []
        /\ length (CommitGen.collected a) = length (Spec.fired_types a)
        /\ length (CommitGen.collected a) <= 4
        \/ Spec.fired_types a = [] /\ length (CommitGen.collected a) = 3)
    /\ CommitGen.getFallbackSuggestions a = CommitGen.collected a.
Proof.
  intros a _ _.
  split; [lia|]. split; [|apply orchestrator_is_collected].
  assert (Hdec : Spec.fired_types a = [] \/ Spec.fired_types a <> [])
    by (destruct (Spec.fired_types a); [left|right]; congruence).
  destruct Hdec as [Hnil|Hne]; [right|left].
  - split; [exact Hnil|]. rewrite collected_closed.
    unfold Spec.fired_types, Spec.rule_types in Hnil.
    apply fired_nil_conditions in Hnil. unfold orchestrator_rules.
    now rewrite (proj2 (fired_nil_conditions a _ _ _ _ _) Hnil).
  - split; [exact Hne|].
    pose proof (@orchestrator_types a Hne) as Ht.
    rewrite orchestrator_is_collected in Ht.
    apply (f_equal (@length _)) in Ht. rewrite length_map in Ht.
    pose proof (collected_length a). split; [exact Ht|lia].
Qed.

Lemma size_rules_on_button :
  (0 <= 45)%Z /\ (0 <= 12)%Z
  /\ ~ ((45 > 2 * 12)%Z /\ (45 > 20)%Z /\ (12 > 2 * 45)%Z /\ (12 > 20)%Z)
  /\ length (CommitGen.collected Examples.button_analysis) = 1
  /\ CommitGen.getFallbackSuggestions Examples.button_analysis
     = CommitGen.collected Examples.button_analysis.
Proof.
  split; [lia|]. split; [lia|].
  destruct (@size_rules_exclusive_and_slice_keeps_all Examples.button_analysis)
    as (Hex & _ & Hslice); [cbn; lia|cbn; lia|].
  split; [exact Hex|]. split; [reflexivity|exact Hslice].
Defined.

(* ================================================================= *)
(** ** Further properties of the analyzer *)

Lemma dropWhile_fixed p s c t :
  s = c :: t -> p c = false -> dropWhile p s = s.
Proof. intros -> H. cbn [dropWhile]. now rewrite H. Qed.

Lemma trim_ends s :
  match trim s with
  | c :: _ => is_space c = false
  | [] => True
  end
  /\ match rev (trim s) with
     | c :: _ => is_space c = false
     | [] => True
     end.
Proof.
  unfold trim, trimEnd, trimStart. rewrite rev_involutive.
  destruct (dropWhile is_space (rev (dropWhile is_space s))) as [|c u] eqn:Eu.
  - split; exact I.
  - apply dropWhile_keeps in Eu as [Hc [pre Hpre]]. split; [|exact Hc].
    destruct (dropWhile is_space s) as [|c0 t] eqn:Et.
    + destruct pre; discriminate Hpre.
    + apply dropWhile_keeps in Et as [Hc0 _].
      apply (f_equal (@rev cu)) in Hpre.
      rewrite rev_involutive, rev_app_distr in Hpre.
      destruct (rev (c :: u)) as [|d w] eqn:Ew.
      * apply (f_equal (@length cu)) in Ew. rewrite length_rev in Ew.
        discriminate Ew.
      * cbn [app] in Hpre. injection Hpre as <- _. exact Hc0.
Qed.

Lemma trim_fixed s :
  match s with c :: _ => is_space c = false | [] => True end ->
  match rev s with c :: _ => is_space c = false | [] => True end ->
  trim s = s.
Proof.
  intros Hhd Hlast. unfold trim, trimEnd, trimStart.
  assert (E1 : dropWhile is_space s = s).
  { destruct s as [|c t]; [reflexivity|]. now apply (@dropWhile_fixed _ _ c t). }
  rewrite E1.
  assert (E2 : dropWhile is_space (rev s) = rev s).
  { destruct (rev s) as [|c t]; [reflexivity|].
    now apply (@dropWhile_fixed _ _ c t). }
  rewrite E2. apply rev_involutive.
Qed.

(** X1: whatever [execSync] does, [exec] returns a string, and that
    string neither begins nor ends with whitespace: trimming it again
    changes nothing. *)
Theorem exec_returns_trimmed :
  forall execSync cmd,
    exists s,
      CommitGen.exec execSync cmd = Normal s
      /\ match s with c :: _ => is_space c = false | [] => True end
      /\ match rev s with c :: _ => is_space c = false | [] => True end
      /\ trim s = s.
Proof.
  intros execSync cmd. eexists. split; [apply exec_normal|].
  assert (H : forall s,
    match s with c :: _ => is_space c = false | [] => True end
    /\ match rev s with c :: _ => is_space c = false | [] => True end ->
    match s with c :: _ => is_space c = false | [] => True end
    /\ match rev s with c :: _ => is_space c = false | [] => True end
    /\ trim s = s).
  { intros s [H1 H2]. split; [exact H1|]. split; [exact H2|].
    now apply trim_fixed. }
  destruct (execSync cmd) as [out|e].
  - apply H, trim_ends.
  - apply (H []). split; exact I.
Qed.

(** X2: [isGitRepo] never throws, and answers true exactly when the
    command succeeds and prints something other than whitespace. *)
Theorem isGitRepo_iff_output :
  forall execSync,
    exists b,
      CommitGen.isGitRepo execSync = Normal b
      /\ (b = true <->
          exists out,
            execSync (lit "git rev-parse --git-dir") = Normal out
            /\ forallb is_space out = false).
Proof.
  intros execSync. unfold CommitGen.isGitRepo. rewrite exec_normal.
  cbn [bind]. eexists. split; [reflexivity|].
  destruct (execSync (lit "git rev-parse --git-dir")) as [out|e].
  - rewrite nonempty_true. split.
    + intros Hne. exists out. split; [reflexivity|].
      destruct (forallb is_space out) eqn:E; [|reflexivity].
      apply trim_nil in E. contradiction.
    + intros (out' & [= <-] & Hf) Hnil. apply trim_nil in Hnil. congruence.
  - cbn [nonempty]. split; [discriminate|]. intros (out & Hout & _).
    discriminate Hout.
Qed.

Lemma filter_disjoint_length {A} (f g : A -> bool) l :
  (forall x, f x && g x = false) ->
  length (filter f l) + length (filter g l) <= length l.
Proof.
  intros Hfg. induction l as [|x l IH]; [reflexivity|].
  cbn [filter]. specialize (Hfg x).
  destruct (f x), (g x); cbn [length] in *; try discriminate Hfg; lia.
Qed.

Lemma dot_path_sound s : forall q,
  dot_path s = Some q ->
  exists rest,
    s = q ++ rest /\ Spec.separator_here rest = true
    /\ forallb is_dot q = true.
Proof.
  induction s as [|c s IH]; intros q; cbn [dot_path].
  - destruct (Spec.separator_here []) eqn:E; [discriminate E|discriminate].
  - destruct (Spec.separator_here (c :: s)) eqn:E.
    + intros [= <-]. exists (c :: s). auto.
    + destruct (is_dot c) eqn:Hc; [|discriminate].
      destruct (dot_path s) as [q'|] eqn:Hq; [|discriminate].
      intros [= <-]. destruct (IH q' eq_refl) as (rest & -> & Hsep & Hdots).
      exists rest. cbn [forallb app]. rewrite Hc, Hdots. auto.
Qed.

Lemma path_at_sound r q :
  path_at r = Some q ->
  exists rest,
    r = q ++ rest /\ Spec.separator_here rest = true
    /\ q <> [] /\ forallb is_dot q = true.
Proof.
  destruct r as [|c s]; cbn [path_at]; [discriminate|].
  destruct (is_dot c) eqn:Hc; [|discriminate].
  destruct (dot_path s) as [q'|] eqn:Hq; [|discriminate].
  intros [= <-]. destruct (dot_path_sound s Hq) as (rest & -> & Hsep & Hdots).
  exists rest. cbn [forallb app]. rewrite Hc, Hdots.
  repeat split; auto. discriminate.
Qed.

Lemma strip_then_path_sound line : forall p,
  strip_then_path line = Some p ->
  exists pre rest,
    line = pre ++ p ++ rest /\ forallb is_space pre = true
    /\ Spec.separator_here rest = true
    /\ p <> [] /\ forallb is_dot p = true.
Proof.
  assert (Hat : forall r p, path_at r = Some p ->
    exists pre rest,
      r = pre ++ p ++ rest /\ forallb is_space pre = true
      /\ Spec.separator_here rest = true
      /\ p <> [] /\ forallb is_dot p = true).
  { intros r p H. destruct (path_at_sound r H) as (rest & -> & H').
    exists [], rest. auto. }
  induction line as [|c s IH]; intros p; cbn [strip_then_path];
    [discriminate|].
  destruct (is_space c) eqn:Hc; [|apply Hat].
  destruct (strip_then_path s) as [q|]; [|apply Hat].
  intros [= <-]. destruct (IH q eq_refl) as (pre & rest & -> & Hpre & H').
  exists (c :: pre), rest. cbn [forallb app]. rewrite Hc, Hpre. auto.
Qed.

(** X4: whatever the stat text, every path in [filesChanged] was cut
    from one of its lines, where only whitespace stands before it and a
    run of whitespace followed by [|] right after it; it is not empty
    and holds no line terminator. *)
Theorem filesChanged_paths_come_from_lines :
  forall staged unstaged diff path,
    In path (filesChanged (CommitGen.analyze staged unstaged diff)) ->
    exists line pre rest,
      In line (split_LF staged)
      /\ line = pre ++ path ++ rest
      /\ forallb is_space pre = true
      /\ Spec.separator_here rest = true
      /\ path <> []
      /\ existsb is_line_terminator path = false.
Proof.
  intros staged unstaged diff path. rewrite files_of_analyze.
  intros (line & Hline & Hp)%in_flat_map. unfold captured in Hp.
  destruct (strip_then_path line) as [q|] eqn:E; [|destruct Hp].
  destruct Hp as [<-|[]].
  destruct (strip_then_path_sound line E)
    as (pre & rest & Heq & Hpre & Hsep & Hne & Hdots).
  exists line, pre, rest. repeat split; auto.
  clear -Hdots. induction q as [|c q IH]; [reflexivity|].
  cbn [forallb existsb] in *. apply andb_true_iff in Hdots as [Hc Hq].
  unfold is_dot in Hc. rewrite (IH Hq).
  now destruct (is_line_terminator c).
Qed.

Lemma filesChanged_paths_of_two_files :
  In (lit "README.md")
     (filesChanged (CommitGen.analyze Examples.stat_two_files [] []))
  /\ exists line pre rest,
      In line (split_LF Examples.stat_two_files)
      /\ line = pre ++ lit "README.md" ++ rest
      /\ forallb is_space pre = true
      /\ Spec.separator_here rest = true
      /\ lit "README.md" <> []
      /\ existsb is_line_terminator (lit "README.md") = false.
Proof.
  assert (Hin : In (lit "README.md")
     (filesChanged (CommitGen.analyze Examples.stat_two_files [] [])))
    by (vm_compute; auto).
  split; [exact Hin|].
  exact (@filesChanged_paths_come_from_lines
           Examples.stat_two_files [] [] (lit "README.md") Hin).
Defined.

(* ================================================================= *)
(** ** Substrings, markers and extensions *)

Lemma startsWith_iff p : forall s,
  startsWith s p = true <-> exists post, s = p ++ post.
Proof.
  induction p as [|a p IH]; intros s.
  - destruct s; cbn; split; eauto.
  - destruct s as [|b s]; cbn [startsWith].
    + split; [discriminate|]. intros [post H]. discriminate H.
    + rewrite andb_true_iff, IH, N.eqb_eq. split.
      * intros [-> [post ->]]. now exists post.
      * intros [post [= -> ->]]. eauto.
Qed.

Lemma includes_iff sub s :
  includes s sub = true <-> exists pre post, s = pre ++ sub ++ post.
Proof.
  induction s as [|c s IH]; cbn [includes]; rewrite orb_true_iff.
  - rewrite startsWith_iff. split.
    + intros [[post H]|H]; [|discriminate H]. now exists [], post.
    + intros (pre & post & H). left.
      destruct pre; [now exists post|discriminate H].
  - rewrite startsWith_iff, IH. split.
    + intros [[post H]|(pre & post & ->)].
      * now exists [], post.
      * now exists (c :: pre), post.
    + intros ([|d pre] & post & H).
      * left. now exists post.
      * right. injection H as -> ->. now exists pre, post.
Qed.

(** Containing a string is containing each piece of it. *)
Lemma includes_piece s a b c :
  includes s (a ++ b ++ c) = true -> includes s b = true.
Proof.
  rewrite !includes_iff. intros (pre & post & ->).
  exists (pre ++ a), (c ++ post). now rewrite <- !app_assoc.
Qed.

Lemma orb_absorb (a b c : bool) : (c = true -> a = true) -> a || b || c = a || b.
Proof. destruct a, b, c; cbn; intros H; auto. symmetry. now apply H. Qed.

Lemma orb_absorb_mid (a b c : bool) :
  (c = true -> b = true) -> a || b || c = a || b.
Proof. destruct a, b, c; cbn; intros H; auto. symmetry. now apply H. Qed.

(** X5: the markers [__tests__] and [package.json] never decide
    anything: a path that contains one contains [test], respectively
    [.json], already, so the rules see what the shorter markers see. *)
Theorem long_markers_are_subsumed :
  forall files,
    CommitGen.hasTests files
    = existsb (fun f => includes f (lit "test") || includes f (lit "spec")) files
    /\ CommitGen.hasConfig files
    = existsb (fun f => includes f (lit "config") || includes f (lit ".json"))
        files
    /\ VercelGoogleProvider.hasTests files = CommitGen.hasTests files
    /\ VercelGoogleProvider.hasConfig files = CommitGen.hasConfig files.
Proof.
  intros files. split; [|split; [|split; reflexivity]].
  - unfold CommitGen.hasTests. induction files as [|f files IH]; [reflexivity|].
    cbn [existsb]. rewrite IH. f_equal. apply orb_absorb.
    apply (@includes_piece f (lit "__") (lit "test") (lit "s__")).
  - unfold CommitGen.hasConfig. induction files as [|f files IH]; [reflexivity|].
    cbn [existsb]. rewrite IH. f_equal. apply orb_absorb_mid.
    apply (@includes_piece f (lit "package") (lit ".json") []).
Qed.

Lemma split_by_app p a c b :
  p c = true -> split_by p (a ++ c :: b) = split_by p a ++ split_by p b.
Proof.
  intros Hc. induction a as [|d a IH]; cbn [app split_by].
  - now rewrite Hc.
  - rewrite IH. destruct (p d); [reflexivity|].
    destruct (split_by_cons p a) as (l & ls & ->). reflexivity.
Qed.

Lemma split_by_none p s :
  (forall c, In c s -> p c = false) -> split_by p s = [s].
Proof.
  induction s as [|c s IH]; [reflexivity|]. intros H. cbn [split_by].
  rewrite (H c) by now left. rewrite IH by (intros d Hd; apply H; now right).
  reflexivity.
Qed.

Lemma split_by_pieces p s : forall l c,
  In l (split_by p s) -> In c l -> p c = false.
Proof.
  induction s as [|d s IH]; intros l c; cbn [split_by].
  - intros [<-|[]] [].
  - destruct (p d) eqn:Hd.
    + intros [<-|Hl]; [intros []|]. eauto.
    + destruct (split_by p s) as [|l0 ls].
      * intros [<-|[]] [<-|[]]. exact Hd.
      * intros [<-|Hl].
        -- intros [<-|Hc]; [exact Hd|]. apply (IH l0); [now left|exact Hc].
        -- intros Hc. apply (IH l); [now right|exact Hc].
Qed.

Lemma last_app_nonempty {A} (l1 l2 : list A) d :
  l2 <> [] -> last (l1 ++ l2) d = last l2 d.
Proof.
  intros H. induction l1 as [|x l1 IH]; [reflexivity|].
  cbn [app]. destruct (l1 ++ l2) eqn:E; [|now rewrite <- IH].
  apply app_eq_nil in E as [_ E]. contradiction.
Qed.

Lemma last_In {A} (l : list A) d : l <> [] -> In (last l d) l.
Proof.
  induction l as [|x l IH]; [congruence|]. intros _.
  destruct l as [|y l]; [now left|]. right. apply IH. discriminate.
Qed.

Lemma not_dot_iff s :
  ~ In DOT s <-> forall c, In c s -> (c =? DOT)%N = false.
Proof.
  split.
  - intros H c Hc. apply N.eqb_neq. intros ->. contradiction.
  - intros H Hd. specialize (H DOT Hd). discriminate H.
Qed.

(** X6: the extension [displayAnalysis] looks up is what stands after
    the last dot of the path, the whole path when it has no dot; it
    never contains a dot itself. *)
Theorem fileExtension_is_after_last_dot :
  (forall f e, ~ In DOT e -> CommitGen.fileExtension (f ++ DOT :: e) = e)
  /\ (forall f, ~ In DOT f -> CommitGen.fileExtension f = f)
  /\ (forall f, ~ In DOT (CommitGen.fileExtension f)).
Proof.
  unfold CommitGen.fileExtension. split; [|split].
  - intros f e He. rewrite split_by_app by reflexivity.
    rewrite (@split_by_none _ e) by now apply not_dot_iff.
    rewrite last_app_nonempty by discriminate. reflexivity.
  - intros f Hf. rewrite split_by_none by now apply not_dot_iff. reflexivity.
  - intros f. apply not_dot_iff. intros c Hc.
    refine (@split_by_pieces (fun c => (c =? DOT)%N) f _ c _ Hc).
    apply last_In.
    destruct (split_by_cons (fun c => (c =? DOT)%N) f) as (l & ls & ->).
    discriminate.
Qed.

Lemma fileExtension_of_test_component :
  ~ In DOT (lit "tsx")
  /\ CommitGen.fileExtension (lit "src/Button.test" ++ DOT :: lit "tsx")
     = lit "tsx"
  /\ ~ In DOT (lit "README")
  /\ CommitGen.fileExtension (lit "README") = lit "README".
Proof.
  assert (H1 : ~ In DOT (lit "tsx")) by (cbv; intuition discriminate).
  assert (H2 : ~ In DOT (lit "README")) by (cbv; intuition discriminate).
  destruct fileExtension_is_after_last_dot as (Hext & Hwhole & _).
  split; [exact H1|]. split; [exact (Hext (lit "src/Button.test") _ H1)|].
  split; [exact H2|exact (Hwhole _ H2)].
Defined.

(* ================================================================= *)
(** ** Formatting a message and building the commit command *)

(** A formatted message is its header, then the body and the footer
    when set. *)
Lemma formatCommitMessage_parts msg :
  CommitGen.formatCommitMessage msg
  = header msg
    ++ (if truthy (body msg)
        then [LF; LF] ++ match body msg with Some b => b | None => [] end
        else [])
    ++ (if truthy_bool (breaking msg) then CommitGen.breaking_footer else []).
Proof.
  destruct msg as [t sc sub b br].
  unfold CommitGen.formatCommitMessage, header.
  cbn [type scope subject body breaking].
  destruct sc as [[|c s]|]; cbn [truthy nonempty];
    destruct (truthy b); destruct (truthy_bool br);
    rewrite <- ?app_assoc; cbn [app]; rewrite ?app_nil_r; reflexivity.
Qed.

Lemma formatCommitMessage_shape msg :
  CommitGen.formatCommitMessage msg = header msg
  \/ exists rest, CommitGen.formatCommitMessage msg = header msg ++ LF :: rest.
Proof.
  rewrite formatCommitMessage_parts. unfold CommitGen.breaking_footer.
  destruct (truthy (body msg)); destruct (truthy_bool (breaking msg));
    cbn [app]; rewrite ?app_nil_r; eauto.
Qed.

Lemma In_header_colon msg : In COLON (header msg).
Proof.
  unfold header. apply in_or_app. right. apply in_or_app. right.
  apply in_or_app. right. left. reflexivity.
Qed.

(** X7: a formatted message is never blank: it holds a colon, so the
    check for an empty message after trimming does not reject it. *)
Theorem formatCommitMessage_never_blank :
  forall msg, trim (CommitGen.formatCommitMessage msg) <> [].
Proof.
  intros msg Hnil. apply trim_nil in Hnil.
  assert (Hin : In COLON (CommitGen.formatCommitMessage msg)).
  { destruct (formatCommitMessage_shape msg) as [->|[rest ->]];
      [|apply in_or_app; left]; apply In_header_colon. }
  rewrite forallb_forall in Hnil. specialize (Hnil COLON Hin).
  discriminate Hnil.
Qed.

Lemma not_LF_iff s :
  ~ In LF s <-> forall c, In c s -> (c =? LF)%N = false.
Proof.
  split.
  - intros H c Hc. apply N.eqb_neq. intros ->. contradiction.
  - intros H Hd. specialize (H LF Hd). discriminate H.
Qed.

(** X8: when type, scope and subject hold no line feed, the preview
    shown in the menu is the header [type(scope)!: subject], whatever
    the body. *)
Theorem preview_is_header :
  forall msg,
    ~ In LF (type msg) ->
    ~ In LF (subject msg) ->
    (forall sc, scope msg = Some sc -> ~ In LF sc) ->
    CommitGen.preview (CommitGen.formatCommitMessage msg) = header msg.
Proof.
  intros msg Ht Hs Hsc.
  assert (Hh : ~ In LF (header msg)).
  { assert (Hlit : forall l : jsstring,
      In LF l -> forallb (fun c => negb (c =? LF)%N) l = true -> False).
    { intros l Hin Hall. rewrite forallb_forall in Hall.
      specialize (Hall LF Hin). discriminate Hall. }
    unfold header. intros H.
    apply in_app_or in H as [H|H]; [contradiction|].
    apply in_app_or in H as [H|H].
    - destruct (scope msg) as [[|c sc]|] eqn:E; [destruct H| |destruct H].
      apply in_app_or in H as [H|H]; [now apply (Hlit _ H)|].
      apply in_app_or in H as [H|H]; [|now apply (Hlit _ H)].
      now apply (Hsc (c :: sc) eq_refl).
    - apply in_app_or in H as [H|H].
      + destruct (truthy_bool (breaking msg)); [now apply (Hlit _ H)|destruct H].
      + apply in_app_or in H as [H|H]; [now apply (Hlit _ H)|contradiction]. }
  unfold CommitGen.preview, split_LF.
  destruct (formatCommitMessage_shape msg) as [->|[rest ->]].
  - rewrite split_by_none by now apply not_LF_iff. reflexivity.
  - rewrite split_by_app by reflexivity.
    rewrite (@split_by_none _ (header msg)) by now apply not_LF_iff.
    reflexivity.
Qed.

Lemma preview_of_breaking_message :
  CommitGen.preview
    (CommitGen.formatCommitMessage
       (mkCommitMessage (lit "feat") (Some (lit "api")) (lit "drop v1")
          (Some (lit "The v1 routes are gone.")) (Some true)))
  = lit "feat(api)!: drop v1".
Proof.
  apply (@preview_is_header
           (mkCommitMessage (lit "feat") (Some (lit "api")) (lit "drop v1")
              (Some (lit "The v1 routes are gone.")) (Some true))).
  - cbv. intuition discriminate.
  - cbv. intuition discriminate.
  - intros sc [= <-]. cbv. intuition discriminate.
Defined.

Lemma In_fired {A} a (xs : list A) x : In x (Spec.fired a xs) -> In x xs.
Proof.
  unfold Spec.fired. generalize (Spec.conditions a) as cs.
  intros cs; revert xs; induction cs as [|b cs IH]; intros xs.
  - intros [].
  - destruct xs as [|y xs]; [intros []|]. cbn [combine filter fst].
    destruct b; cbn [map snd].
    + intros [<-|H]; [now left|right; now apply IH].
    + intros H. right. now apply IH.
Qed.

(** X9: each suggestion of the orchestrator's rule-based suggester is
    formatted as the single line [type: subject]; its preview in the
    menu is the whole message. *)
Theorem orchestrator_suggestions_format_to_one_line :
  forall a m,
    In m (CommitGen.getFallbackSuggestions a) ->
    CommitGen.formatCommitMessage m = type m ++ lit ": " ++ subject m
    /\ CommitGen.preview (CommitGen.formatCommitMessage m)
       = CommitGen.formatCommitMessage m.
Proof.
  intros a m. rewrite orchestrator_is_collected, collected_closed.
  intros Hm.
  assert (Hall : In m (orchestrator_rules ++ orchestrator_generic)).
  { apply in_or_app. unfold or_else in Hm.
    destruct (Spec.fired a orchestrator_rules) eqn:E; [now right|].
    left. rewrite <- E in Hm. now apply (@In_fired _ a). }
  cbn in Hall.
  repeat (destruct Hall as [<-|Hall]; [split; reflexivity|]).
  destruct Hall.
Qed.

Lemma button_suggestion_formats_to_one_line :
  In (message (lit "feat") (lit "add new feature"))
     (CommitGen.getFallbackSuggestions Examples.button_analysis)
  /\ CommitGen.formatCommitMessage (message (lit "feat") (lit "add new feature"))
     = lit "feat: add new feature".
Proof.
  assert (Hin : In (message (lit "feat") (lit "add new feature"))
     (CommitGen.getFallbackSuggestions Examples.button_analysis))
    by (vm_compute; auto).
  split; [exact Hin|].
  exact (proj1 (@orchestrator_suggestions_format_to_one_line
                  Examples.button_analysis _ Hin)).
Defined.

Lemma escapeQuotes_cons c m :
  CommitGen.escapeQuotes (c :: m)
  = (if (c =? QUOTE)%N then [BACKSLASH; QUOTE] else [c])
    ++ CommitGen.escapeQuotes m.
Proof. reflexivity. Qed.

(** X10: in the escaped message every double quote stands right after a
    backslash; the escaping adds one code unit per double quote and
    leaves a message without double quotes as it is. Backslashes of the
    message are not escaped. *)
Theorem escapeQuotes_guards_every_quote :
  (forall m pre post,
     CommitGen.escapeQuotes m = pre ++ QUOTE :: post ->
     exists pre', pre = pre' ++ [BACKSLASH])
  /\ (forall m,
     length (CommitGen.escapeQuotes m)
     = length m + length (filter (N.eqb QUOTE) m))
  /\ (forall m, ~ In QUOTE m -> CommitGen.escapeQuotes m = m)
  /\ (forall m, ~ In QUOTE m ->
      CommitGen.commitCommand m None
      = lit "git commit -m " ++ [QUOTE] ++ m ++ [QUOTE]).
Proof.
  assert (Hsame : forall m, ~ In QUOTE m -> CommitGen.escapeQuotes m = m).
  { induction m as [|c m IH]; [reflexivity|]. intros H.
    rewrite escapeQuotes_cons, IH by (intros Hm; apply H; now right).
    destruct (N.eqb_spec c QUOTE) as [->|]; [|reflexivity].
    exfalso. apply H. now left. }
  split; [|split; [|split]].
  - induction m as [|c m IH]; intros pre post.
    + destruct pre; discriminate.
    + rewrite escapeQuotes_cons.
      destruct (N.eqb_spec c QUOTE) as [->|Hc]; cbn [app].
      * destruct pre as [|x [|y pre]]; cbn [app].
        -- discriminate.
        -- intros [= <- _]. now exists [].
        -- intros [= <- <- H]. destruct (IH _ _ H) as [pre' ->].
           now exists (BACKSLASH :: QUOTE :: pre').
      * destruct pre as [|x pre]; cbn [app].
        -- intros [= E _]. contradiction.
        -- intros [= <- H]. destruct (IH _ _ H) as [pre' ->].
           now exists (c :: pre').
  - induction m as [|c m IH]; [reflexivity|].
    rewrite escapeQuotes_cons, length_app, IH. cbn [filter].
    rewrite (N.eqb_sym QUOTE c).
    destruct (c =? QUOTE)%N; cbn [length]; lia.
  - exact Hsame.
  - intros m H. unfold CommitGen.commitCommand. cbn [truthy_bool].
    now rewrite Hsame.
Qed.

Lemma escapeQuotes_of_quoted_word :
  CommitGen.escapeQuotes (lit "fix " ++ [QUOTE] ++ lit "it" ++ [QUOTE])
    = (lit "fix " ++ [BACKSLASH]) ++ QUOTE :: (lit "it" ++ [BACKSLASH; QUOTE])
  /\ (exists pre', lit "fix " ++ [BACKSLASH] = pre' ++ [BACKSLASH])
  /\ ~ In QUOTE (lit "fix typo")
  /\ CommitGen.commitCommand (lit "fix typo") None
     = lit "git commit -m " ++ [QUOTE] ++ lit "fix typo" ++ [QUOTE].
Proof.
  destruct escapeQuotes_guards_every_quote as (Hguard & _ & _ & Hcmd).
  assert (E : CommitGen.escapeQuotes
                (lit "fix " ++ [QUOTE] ++ lit "it" ++ [QUOTE])
    = (lit "fix " ++ [BACKSLASH]) ++ QUOTE :: (lit "it" ++ [BACKSLASH; QUOTE]))
    by reflexivity.
  assert (Hq : ~ In QUOTE (lit "fix typo")) by (cbv; intuition discriminate).
  split; [exact E|]. split; [exact (Hguard _ _ _ E)|].
  split; [exact Hq|exact (Hcmd _ Hq)].
Defined.

(* ================================================================= *)
(** ** The provider: construction and the reply of the model *)

(** X11: constructing the provider succeeds exactly when the key
    passed, or else the key of the environment, is a non-empty string;
    the key passed wins when it is not empty, an empty one falls back
    to the environment, and an instance never holds an empty key. *)
Theorem constructor_needs_a_key :
  forall key model env,
    (truthy key = true ->
     exists k, key = Some k
       /\ VercelGoogleProvider.constructor key model env
          = Normal (VercelGoogleProvider.mkInstance (lit "vercel-google") k
                      match model with
                      | Some m => m
                      | None => lit "gemini-2.5-flash"
                      end))
    /\ (truthy key = false -> truthy env = true ->
        exists k, env = Some k
          /\ VercelGoogleProvider.constructor key model env
             = Normal (VercelGoogleProvider.mkInstance (lit "vercel-google") k
                         match model with
                         | Some m => m
                         | None => lit "gemini-2.5-flash"
                         end))
    /\ (truthy key = false -> truthy env = false ->
        exists e, VercelGoogleProvider.constructor key model env = Throw e)
    /\ (forall p,
        VercelGoogleProvider.constructor key model env = Normal p ->
        VercelGoogleProvider.apiKey p <> []).
Proof.
  intros key model env. unfold VercelGoogleProvider.constructor, js_or.
  destruct key as [[|c k]|]; destruct env as [[|d e]|];
    cbn [truthy nonempty]; repeat split;
    try discriminate; try (intros; discriminate);
    try (intros _; eexists; split; reflexivity);
    try (intros _ _; eexists; split; reflexivity);
    try (intros _ _; eexists; reflexivity);
    intros p [= <-]; discriminate.
Qed.

Lemma constructor_falls_back_to_environment :
  truthy (Some []) = false /\ truthy (Some (lit "env-key")) = true
  /\ (exists k, Some (lit "env-key") = Some k
       /\ VercelGoogleProvider.constructor (Some []) None (Some (lit "env-key"))
          = Normal (VercelGoogleProvider.mkInstance (lit "vercel-google") k
                      (lit "gemini-2.5-flash")))
  /\ truthy None = false
  /\ (exists e, VercelGoogleProvider.constructor None None None = Throw e).
Proof.
  split; [reflexivity|]. split; [reflexivity|].
  split.
  - exact (proj1 (proj2 (constructor_needs_a_key
             (Some []) None (Some (lit "env-key")))) eq_refl eq_refl).
  - split; [reflexivity|].
    exact (proj1 (proj2 (proj2 (constructor_needs_a_key None None None)))
             eq_refl eq_refl).
Defined.

Lemma any_unit_true c : VercelGoogleProvider.any_unit c = true.
Proof. unfold VercelGoogleProvider.any_unit. apply orb_negb_r. Qed.

(** The greedy [[\s\S]*] before the closing bracket runs to the last
    closing bracket. *)
Lemma star_any_bracket s : forall bef cap,
  option_map before
    (star_loop VercelGoogleProvider.any_unit
       (r_char (N.eqb RBRACKET) Some) bef s cap)
  = option_map (fun u => rev u ++ bef) (upto_last_bracket s).
Proof.
  induction s as [|c s IH]; intros bef cap; [reflexivity|].
  cbn [star_loop upto_last_bracket]. rewrite any_unit_true.
  specialize (IH (c :: bef) cap).
  destruct (star_loop _ _ (c :: bef) s cap) as [r|];
    destruct (upto_last_bracket s) as [u|]; cbn [option_map] in *;
    try discriminate IH.
  - injection IH as ->. cbn [rev]. now rewrite <- app_assoc.
  - unfold r_char; cbn [after before capture1].
    rewrite (N.eqb_sym c RBRACKET).
    destruct (RBRACKET =? c)%N; reflexivity.
Qed.

Lemma consumed_since_before st st' pre :
  before st' = rev pre ++ before st -> consumed_since st st' = pre.
Proof.
  destruct st as [b a c], st' as [b' a' c']; cbn [before]. intros ->.
  apply consumed_since_app.
Qed.

Lemma json_attempt bef aft :
  option_map (consumed_since (MState bef aft None))
    (VercelGoogleProvider.re_json_array Some (MState bef aft None))
  = match aft with
    | c :: s =>
        if (c =? LBRACKET)%N
        then option_map (cons c) (upto_last_bracket s) else None
    | [] => None
    end.
Proof.
  unfold VercelGoogleProvider.re_json_array, r_seq, r_char at 1, r_star.
  destruct aft as [|c s]; [reflexivity|]. cbn [after before capture1].
  rewrite (N.eqb_sym c LBRACKET).
  destruct (LBRACKET =? c)%N; [|reflexivity].
  pose proof (star_any_bracket s (c :: bef) None) as H.
  destruct (star_loop _ _ (c :: bef) s None) as [r|];
    destruct (upto_last_bracket s) as [u|]; cbn [option_map] in *;
    try discriminate H; [|reflexivity].
  injection H as H. f_equal.
  apply consumed_since_before. cbn [before rev]. now rewrite <- app_assoc.
Qed.

Lemma exec_loop_json aft : forall bef,
  option_map m_0 (exec_loop VercelGoogleProvider.re_json_array bef aft)
  = bracketed aft.
Proof.
  induction aft as [|c s IH]; intros bef.
  - cbn [exec_loop bracketed]. pose proof (json_attempt bef []) as H.
    destruct (VercelGoogleProvider.re_json_array Some (MState bef [] None));
      [discriminate H|reflexivity].
  - cbn [exec_loop bracketed]. pose proof (json_attempt bef (c :: s)) as H.
    destruct (VercelGoogleProvider.re_json_array Some (MState bef (c :: s) None))
      as [r|]; cbn [option_map m_0] in *.
    + destruct (c =? LBRACKET)%N; [|discriminate H].
      destruct (upto_last_bracket s); [exact H|discriminate H].
    + destruct (c =? LBRACKET)%N;
        [destruct (upto_last_bracket s); [discriminate H|]|]; apply IH.
Qed.

Lemma upto_last_bracket_some s : forall u,
  upto_last_bracket s = Some u ->
  exists mid post, u = mid ++ [RBRACKET] /\ s = u ++ post /\ ~ In RBRACKET post.
Proof.
  induction s as [|c s IH]; intros u; cbn [upto_last_bracket]; [discriminate|].
  destruct (upto_last_bracket s) as [v|] eqn:E.
  - intros [= <-]. destruct (IH v eq_refl) as (mid & post & -> & Hs & Hpost).
    exists (c :: mid), post. rewrite Hs at 1. auto.
  - destruct (N.eqb_spec c RBRACKET) as [->|Hc]; [|discriminate].
    intros [= <-]. exists [], s. repeat split.
    clear IH. induction s as [|d s IHs]; [intros []|].
    cbn [upto_last_bracket] in E.
    destruct (upto_last_bracket s); [discriminate E|].
    destruct (N.eqb_spec d RBRACKET); [discriminate E|].
    intros [H|H]; [congruence|]. now apply IHs.
Qed.

Lemma upto_last_bracket_none s :
  upto_last_bracket s = None -> ~ In RBRACKET s.
Proof.
  induction s as [|d s IH]; [intros _ []|]. cbn [upto_last_bracket].
  destruct (upto_last_bracket s); [discriminate|].
  destruct (N.eqb_spec d RBRACKET); [discriminate|].
  intros _ [H|H]; [congruence|]. now apply IH.
Qed.

Lemma bracketed_spec text :
  match bracketed text with
  | Some found =>
      exists pre mid post,
        text = pre ++ LBRACKET :: mid ++ RBRACKET :: post
        /\ ~ In LBRACKET pre /\ ~ In RBRACKET post
        /\ found = LBRACKET :: mid ++ [RBRACKET]
  | None =>
      forall pre mid post, text <> pre ++ LBRACKET :: mid ++ RBRACKET :: post
  end.
Proof.
  induction text as [|c s IH]; cbn [bracketed].
  - intros [|x pre] mid post; discriminate.
  - destruct (N.eqb_spec c LBRACKET) as [->|Hc].
    + destruct (upto_last_bracket s) as [u|] eqn:E; cbn [option_map].
      * destruct (upto_last_bracket_some s E) as (mid & post & -> & Hs & Hpost).
        exists [], mid, post. rewrite Hs at 1. rewrite <- app_assoc.
        repeat split; auto.
      * apply upto_last_bracket_none in E.
        assert (Hno : forall pre mid post,
          LBRACKET :: s <> pre ++ LBRACKET :: mid ++ RBRACKET :: post).
        { intros pre mid post H. apply E.
          assert (Hin : In RBRACKET (LBRACKET :: s))
            by (rewrite H; apply in_or_app; right; right;
                apply in_or_app; right; now left).
          destruct Hin as [Hin|Hin]; [discriminate Hin|exact Hin]. }
        destruct (bracketed s); [|exact Hno].
        destruct IH as (pre & mid & post & H & _).
        exfalso. apply (Hno (LBRACKET :: pre) mid post). now rewrite H.
    + destruct (bracketed s) as [found|].
      * destruct IH as (pre & mid & post & -> & Hpre & Hpost & ->).
        exists (c :: pre), mid, post. repeat split; auto.
        intros [H|H]; [congruence|contradiction].
      * intros [|x pre] mid post; cbn [app].
        -- intros [= H _]. contradiction.
        -- intros [= _ H]. now apply (IH pre mid post).
Qed.

(** X12: the piece of the reply handed to [JSON.parse] runs from the
    first opening bracket to the last closing bracket of the reply;
    there is none exactly when no closing bracket follows an opening
    one. *)
Theorem json_match_spans_first_to_last_bracket :
  forall text,
    match js_match VercelGoogleProvider.re_json_array text with
    | Some jsonMatch =>
        exists pre mid post,
          text = pre ++ LBRACKET :: mid ++ RBRACKET :: post
          /\ ~ In LBRACKET pre /\ ~ In RBRACKET post
          /\ m_0 jsonMatch = LBRACKET :: mid ++ [RBRACKET]
    | None =>
        forall pre mid post,
          text <> pre ++ LBRACKET :: mid ++ RBRACKET :: post
    end.
Proof.
  intros text. pose proof (bracketed_spec text) as H.
  pose proof (exec_loop_json text []) as E. fold (js_match
    VercelGoogleProvider.re_json_array text) in E.
  destruct (js_match VercelGoogleProvider.re_json_array text) as [m|];
    cbn [option_map] in E; rewrite <- E in H; exact H.
Qed.

Lemma json_match_needs_brackets text :
  ~ In LBRACKET text \/ ~ In RBRACKET text ->
  js_match VercelGoogleProvider.re_json_array text = None.
Proof.
  intros Hno. pose proof (bracketed_spec text) as H.
  pose proof (exec_loop_json text []) as E.
  fold (js_match VercelGoogleProvider.re_json_array text) in E.
  destruct (js_match VercelGoogleProvider.re_json_array text) as [m|];
    [|reflexivity].
  cbn [option_map] in E. rewrite <- E in H.
  destruct H as (pre & mid & post & -> & _). exfalso.
  destruct Hno as [Hno|Hno]; apply Hno; apply in_or_app; right.
  - now left.
  - right. apply in_or_app. right. now left.
Qed.

Lemma slice0_length {A} n (l : list A) : length (slice0 n l) <= n.
Proof. apply firstn_le_length. Qed.

Lemma generateCommitMessage_returns iF iS response parse a :
  exists l,
    VercelGoogleProvider.generateCommitMessage iF iS response parse a = Normal l
    /\ length l <= 5.
Proof.
  unfold VercelGoogleProvider.generateCommitMessage.
  pose proof (@provider_length iF iS a) as Hfb.
  destruct response as [text|e]; cbn [bind try_catch];
    [|eexists; split; [reflexivity|lia]].
  destruct (js_match VercelGoogleProvider.re_json_array text) as [m|];
    cbn [bind try_catch]; [|eexists; split; [reflexivity|lia]].
  destruct (parse (m_0 m)) as [l|e]; cbn [bind try_catch];
    eexists; (split; [reflexivity|]); [apply slice0_length|lia].
Qed.

(** X13: [generateCommitMessage] never rejects and returns at most 5
    candidates. When the request fails, when the reply has no opening
    or no closing bracket, or when [JSON.parse] throws, the candidates
    are those of the rule-based suggester. *)
Theorem generateCommitMessage_total_and_bounded :
  forall inferFeatureType inferScope response JSON_parse a,
    (exists l,
       VercelGoogleProvider.generateCommitMessage
         inferFeatureType inferScope response JSON_parse a = Normal l
       /\ length l <= 5)
    /\ ((exists e, response = Throw e) ->
        VercelGoogleProvider.generateCommitMessage
          inferFeatureType inferScope response JSON_parse a
        = Normal (VercelGoogleProvider.getFallbackSuggestions
                    inferFeatureType inferScope a))
    /\ (forall text,
        response = Normal text ->
        ~ In LBRACKET text \/ ~ In RBRACKET text ->
        VercelGoogleProvider.generateCommitMessage
          inferFeatureType inferScope response JSON_parse a
        = Normal (VercelGoogleProvider.getFallbackSuggestions
                    inferFeatureType inferScope a))
    /\ (forall text jsonMatch,
        response = Normal text ->
        js_match VercelGoogleProvider.re_json_array text = Some jsonMatch ->
        (exists e, JSON_parse (m_0 jsonMatch) = Throw e) ->
        VercelGoogleProvider.generateCommitMessage
          inferFeatureType inferScope response JSON_parse a
        = Normal (VercelGoogleProvider.getFallbackSuggestions
                    inferFeatureType inferScope a)).
Proof.
  intros iF iS response parse a.
  split; [apply generateCommitMessage_returns|].
  unfold VercelGoogleProvider.generateCommitMessage.
  split; [|split].
  - intros [e ->]. reflexivity.
  - intros text -> Hno. cbn [bind].
    now rewrite (@json_match_needs_brackets text Hno).
  - intros text m -> Hm [e He]. cbn [bind]. rewrite Hm, He. reflexivity.
Qed.

Lemma generateCommitMessage_on_prose_reply :
  (exists e : jsstring, @Throw jsstring (lit "timeout") = Throw e)
  /\ VercelGoogleProvider.generateCommitMessage
       (fun _ => lit "feature") (fun _ => lit "ui")
       (Throw (lit "timeout")) (fun _ => Normal []) Examples.button_analysis
     = Normal (VercelGoogleProvider.getFallbackSuggestions
                 (fun _ => lit "feature") (fun _ => lit "ui")
                 Examples.button_analysis)
  /\ (~ In LBRACKET (lit "Sorry, no changes.")
      \/ ~ In RBRACKET (lit "Sorry, no changes."))
  /\ VercelGoogleProvider.generateCommitMessage
       (fun _ => lit "feature") (fun _ => lit "ui")
       (Normal (lit "Sorry, no changes.")) (fun _ => Normal [])
       Examples.button_analysis
     = Normal (VercelGoogleProvider.getFallbackSuggestions
                 (fun _ => lit "feature") (fun _ => lit "ui")
                 Examples.button_analysis)
  /\ (exists e : jsstring,
        (fun _ : jsstring => @Throw (list CommitMessage) (lit "SyntaxError"))
          (lit "[x]") = Throw e)
  /\ VercelGoogleProvider.generateCommitMessage
       (fun _ => lit "feature") (fun _ => lit "ui")
       (Normal (lit "[x]")) (fun _ => Throw (lit "SyntaxError"))
       Examples.button_analysis
     = Normal (VercelGoogleProvider.getFallbackSuggestions
                 (fun _ => lit "feature") (fun _ => lit "ui")
                 Examples.button_analysis).
Proof.
  assert (H1 : exists e : jsstring, @Throw jsstring (lit "timeout") = Throw e)
    by (eexists; reflexivity).
  assert (H2 : ~ In LBRACKET (lit "Sorry, no changes.")
               \/ ~ In RBRACKET (lit "Sorry, no changes."))
    by (left; cbv; intuition discriminate).
  assert (H3 : exists e : jsstring,
        (fun _ : jsstring => @Throw (list CommitMessage) (lit "SyntaxError"))
          (lit "[x]") = Throw e) by (eexists; reflexivity).
  split; [exact H1|]. split.
  - exact (proj1 (proj2 (generateCommitMessage_total_and_bounded
      (fun _ => lit "feature") (fun _ => lit "ui")
      (Throw (lit "timeout")) (fun _ => Normal []) Examples.button_analysis))
      H1).
  - split; [exact H2|]. split.
    + exact (proj1 (proj2 (proj2 (generateCommitMessage_total_and_bounded
        (fun _ => lit "feature") (fun _ => lit "ui")
        (Normal (lit "Sorry, no changes.")) (fun _ => Normal [])
        Examples.button_analysis))) _ eq_refl H2).
    + split; [exact H3|].
      refine (proj2 (proj2 (proj2 (generateCommitMessage_total_and_bounded
        (fun _ => lit "feature") (fun _ => lit "ui")
        (Normal (lit "[x]")) (fun _ => Throw (lit "SyntaxError"))
        Examples.button_analysis))) (lit "[x]")
        (JsMatch (lit "[x]") None) eq_refl _ H3).
      reflexivity.
Defined.

(* ================================================================= *)
(** ** The suggestions put before the user *)

(** X14: when line 188 of [run] is passed, [suggestions] holds at least
    one element, whatever the provider did: a thrown exception, [null]
    and an empty array all give way to the rule-based suggestions of the
    orchestrator, and so does [options.useAi] being false; an array of
    the provider that is not empty is taken over as it is. *)
Theorem suggestionsOf_never_empty :
  forall useAi generated a,
    (exists l,
       CommitGen.suggestionsOf useAi generated a = Normal l /\ 1 <= length l)
    /\ (useAi = Some false ->
        CommitGen.suggestionsOf useAi generated a
        = Normal (map VMessage (CommitGen.getFallbackSuggestions a)))
    /\ ((exists e, generated = Throw e) \/ generated = Normal None
        \/ generated = Normal (Some []) ->
        CommitGen.suggestionsOf useAi generated a
        = Normal (map VMessage (CommitGen.getFallbackSuggestions a)))
    /\ (forall l,
        useAi <> Some false -> generated = Normal (Some l) -> l <> [] ->
        CommitGen.suggestionsOf useAi generated a = Normal l).
Proof.
  intros useAi generated a.
  pose proof (collected_length a) as Hfb.
  rewrite <- orchestrator_is_collected in Hfb.
  rewrite <- (length_map VMessage) in Hfb.
  assert (Hai : forall u, u <> Some false ->
    CommitGen.suggestionsOf u generated a
    = try_catch
        (suggestions <- generated ;;
         match suggestions with
         | None => Throw (lit "No suggestions generated")
         | Some l =>
             if (length l =? 0)%nat
             then Throw (lit "No suggestions generated")
             else Normal l
         end)
        (fun _ => Normal (map VMessage (CommitGen.getFallbackSuggestions a)))).
  { intros [[|]|] Hu; try reflexivity. congruence. }
  split; [|split; [|split]].
  - destruct useAi as [[|]|];
      try (rewrite Hai by discriminate);
      try (eexists; split; [reflexivity|lia]);
      (destruct generated as [[[|m l]|]|e]; cbn [bind try_catch length Nat.eqb];
       eexists; (split; [reflexivity|]); cbn [length]; lia).
  - intros ->. reflexivity.
  - intros H. destruct useAi as [[|]|];
      try (rewrite Hai by discriminate); try reflexivity;
      destruct H as [[e ->]|[->| ->]]; reflexivity.
  - intros l Hu -> Hl. rewrite Hai by exact Hu.
    destruct l as [|m l]; [congruence|reflexivity].
Qed.

Lemma suggestionsOf_on_failure_and_on_null_element :
  CommitGen.suggestionsOf (Some false) (Normal (Some [])) Examples.small_analysis
    = Normal (map VMessage
                (CommitGen.getFallbackSuggestions Examples.small_analysis))
  /\ CommitGen.suggestionsOf None (Throw (lit "no key")) Examples.small_analysis
    = Normal (map VMessage
                (CommitGen.getFallbackSuggestions Examples.small_analysis))
  /\ CommitGen.suggestionsOf None
       (Normal (Some [VOther (lit "null")])) Examples.small_analysis
    = Normal [VOther (lit "null")].
Proof.
  split; [|split].
  - exact (proj1 (proj2 (suggestionsOf_never_empty
      (Some false) (Normal (Some [])) Examples.small_analysis)) eq_refl).
  - apply (proj1 (proj2 (proj2 (suggestionsOf_never_empty
      None (Throw (lit "no key")) Examples.small_analysis)))).
    left. eexists. reflexivity.
  - apply (proj2 (proj2 (proj2 (suggestionsOf_never_empty
      None (Normal (Some [VOther (lit "null")]))
      Examples.small_analysis)))); [discriminate|reflexivity|discriminate].
Defined.

Lemma generateCommitMessage_untyped_returns iF iS response parse a :
  exists l,
    VercelGoogleProvider.generateCommitMessage_untyped iF iS response parse a
    = Normal l
    /\ length l <= 5.
Proof.
  unfold VercelGoogleProvider.generateCommitMessage_untyped.
  pose proof (@provider_length iF iS a) as Hfb.
  rewrite <- (length_map VMessage) in Hfb.
  destruct response as [text|e]; cbn [bind try_catch];
    [|eexists; split; [reflexivity|lia]].
  destruct (js_match VercelGoogleProvider.re_json_array text) as [m|];
    cbn [bind try_catch]; [|eexists; split; [reflexivity|lia]].
  destruct (parse (m_0 m)) as [l|e]; cbn [bind try_catch];
    eexists; (split; [reflexivity|]); [apply slice0_length|lia].
Qed.

(** On arrays of commit messages the method at run time is the method
    at its declared type. *)
Lemma generateCommitMessage_untyped_typed iF iS response parse a :
  VercelGoogleProvider.generateCommitMessage_untyped iF iS response
    (fun text => l <- parse text ;; Normal (map VMessage l)) a
  = (l <- VercelGoogleProvider.generateCommitMessage iF iS response parse a ;;
     Normal (map VMessage l)).
Proof.
  unfold VercelGoogleProvider.generateCommitMessage_untyped,
    VercelGoogleProvider.generateCommitMessage.
  destruct response as [text|e]; cbn [bind try_catch]; [|reflexivity].
  destruct (js_match VercelGoogleProvider.re_json_array text) as [m|];
    cbn [bind try_catch]; [|reflexivity].
  destruct (parse (m_0 m)) as [l|e]; cbn [bind try_catch]; [|reflexivity].
  unfold slice0. now rewrite firstn_map.
Qed.

(** X15: with the Vercel and Google provider behind it, [suggestions]
    holds between 1 and 5 elements when line 188 of [run] is passed,
    whatever the model replies and whatever array [JSON.parse] makes of
    it, commit messages or not. *)
Theorem suggestions_with_provider_between_one_and_five :
  forall inferFeatureType inferScope useAi response JSON_parse a,
    exists l,
      CommitGen.suggestionsOf useAi
        (suggestions <- VercelGoogleProvider.generateCommitMessage_untyped
                          inferFeatureType inferScope response JSON_parse a ;;
         Normal (Some suggestions)) a
      = Normal l
      /\ 1 <= length l <= 5.
Proof.
  intros iF iS useAi response parse a.
  destruct (generateCommitMessage_untyped_returns iF iS response parse a)
    as (g & -> & Hg). cbn [bind].
  pose proof (collected_length a) as Hfb.
  rewrite <- orchestrator_is_collected in Hfb.
  rewrite <- (length_map VMessage) in Hfb.
  unfold CommitGen.suggestionsOf.
  destruct useAi as [[|]|]; destruct g as [|m g];
    cbn [bind try_catch length Nat.eqb];
    eexists; (split; [reflexivity|]); cbn [length] in *; lia.
Qed.

(** X16: every candidate of either rule-based suggester has a type
    among feat, fix, refactor, test, docs and chore, a subject that is
    not empty, and neither body nor breaking mark. *)
Theorem rule_based_candidates_are_well_formed :
  forall inferFeatureType inferScope a m,
    In m (CommitGen.getFallbackSuggestions a)
    \/ In m (VercelGoogleProvider.getFallbackSuggestions
               inferFeatureType inferScope a) ->
    In (type m)
       [lit "feat"; lit "fix"; lit "refactor"; lit "test"; lit "docs";
        lit "chore"]
    /\ subject m <> []
    /\ body m = None
    /\ breaking m = None.
Proof.
  intros iF iS a m [Hm|Hm].
  - rewrite orchestrator_is_collected, collected_closed in Hm.
    assert (Hall : In m (orchestrator_rules ++ orchestrator_generic)).
    { apply in_or_app. unfold or_else in Hm.
      destruct (Spec.fired a orchestrator_rules) eqn:E; [now right|].
      left. rewrite <- E in Hm. now apply (@In_fired _ a). }
    cbn in Hall.
    repeat (destruct Hall as [<-|Hall];
            [repeat split; cbn; try discriminate; tauto|]).
    destruct Hall.
  - rewrite provider_closed in Hm.
    assert (Hall : In m (provider_rules iF iS (filesChanged a)
                         ++ provider_generic iS (filesChanged a))).
    { apply in_or_app. unfold or_else in Hm.
      destruct (Spec.fired a (provider_rules iF iS (filesChanged a))) eqn:E;
        [now right|].
      left. rewrite <- E in Hm. now apply (@In_fired _ a). }
    unfold provider_rules, provider_generic in Hall. cbn [app In] in Hall.
    repeat (destruct Hall as [<-|Hall];
            [repeat split; cbn; try discriminate; tauto|]).
    destruct Hall.
Qed.

Lemma button_candidate_is_well_formed :
  (In (message (lit "feat") (lit "add new feature"))
      (CommitGen.getFallbackSuggestions Examples.button_analysis)
   \/ In (message (lit "feat") (lit "add new feature"))
        (VercelGoogleProvider.getFallbackSuggestions
           (fun _ => lit "feature") (fun _ => lit "ui")
           Examples.button_analysis))
  /\ subject (message (lit "feat") (lit "add new feature")) <> [].
Proof.
  assert (Hin : In (message (lit "feat") (lit "add new feature"))
      (CommitGen.getFallbackSuggestions Examples.button_analysis)
   \/ In (message (lit "feat") (lit "add new feature"))
        (VercelGoogleProvider.getFallbackSuggestions
           (fun _ => lit "feature") (fun _ => lit "ui")
           Examples.button_analysis))
    by (left; vm_compute; auto).
  split; [exact Hin|].
  exact (proj1 (proj2 (@rule_based_candidates_are_well_formed
                         (fun _ => lit "feature") (fun _ => lit "ui")
                         Examples.button_analysis _ Hin))).
Defined.

Lemma captured_at_most_one line : length (captured line) <= 1.
Proof. unfold captured. destruct (strip_then_path line); cbn; lia. Qed.

Lemma split_by_length p s :
  length (split_by p s) = S (length (filter p s)).
Proof.
  induction s as [|c s IH]; [reflexivity|]. cbn [split_by filter].
  destruct (p c); cbn [length]; [now rewrite IH|].
  destruct (split_by_cons p s) as (l & ls & E). rewrite E in *. exact IH.
Qed.

(** X17: [filesChanged] has at most one path per line of the stat
    text, so no more paths than the text has line feeds, plus one. *)
Theorem filesChanged_at_most_one_per_line :
  forall staged unstaged diff,
    length (filesChanged (CommitGen.analyze staged unstaged diff))
    <= length (split_LF staged)
    /\ length (split_LF staged)
       = S (length (filter (fun c => (c =? LF)%N) staged)).
Proof.
  intros staged unstaged diff. rewrite files_of_analyze.
  split; [|apply split_by_length].
  induction (split_LF staged) as [|l ls IH]; [reflexivity|].
  cbn [flat_map]. rewrite length_app. cbn [length].
  pose proof (captured_at_most_one l). lia.
Qed.

Lemma json_match_of_chatty_reply :
  match js_match VercelGoogleProvider.re_json_array
          (lit "Here: [a] and [b].") with
  | Some jsonMatch =>
      exists pre mid post,
        lit "Here: [a] and [b]." = pre ++ LBRACKET :: mid ++ RBRACKET :: post
        /\ ~ In LBRACKET pre /\ ~ In RBRACKET post
        /\ m_0 jsonMatch = LBRACKET :: mid ++ [RBRACKET]
  | None =>
      forall pre mid post,
        lit "Here: [a] and [b]." <> pre ++ LBRACKET :: mid ++ RBRACKET :: post
  end.
Proof.
  exact (json_match_spans_first_to_last_bracket (lit "Here: [a] and [b].")).
Defined.

(* ================================================================= *)
(** ** A bound on the two counts *)

(** X3: the two counts are not negative, and together they do not
    exceed the number of line terminators of the diff (LF, CR, U+2028,
    U+2029) plus one; in a diff where no [+] and no [-] stands right
    after a CR, U+2028 or U+2029 they do not exceed the number of its
    lines: no line counts twice. *)
Theorem additions_plus_deletions_bounded :
  forall staged unstaged diff,
    (0 <= additions (CommitGen.analyze staged unstaged diff))%Z
    /\ (0 <= deletions (CommitGen.analyze staged unstaged diff))%Z
    /\ (additions (CommitGen.analyze staged unstaged diff)
        + deletions (CommitGen.analyze staged unstaged diff)
        <= Z.of_nat (S (length (filter is_line_terminator diff))))%Z
    /\ (Spec.starts_only_after_LF PLUS diff = true ->
        Spec.starts_only_after_LF MINUS diff = true ->
        (additions (CommitGen.analyze staged unstaged diff)
         + deletions (CommitGen.analyze staged unstaged diff)
         <= Z.of_nat (length (Spec.lines diff)))%Z).
Proof.
  intros staged unstaged diff.
  assert (Hd : forall x,
    Spec.begins_with_single PLUS x && Spec.begins_with_single MINUS x = false).
  { intros [|c x]; [reflexivity|]. cbn [Spec.begins_with_single].
    destruct (N.eqb_spec c PLUS) as [->|]; [|reflexivity].
    change (PLUS =? MINUS)%N with false. cbn [andb]. apply andb_false_r. }
  split; [|split; [|split]].
  - rewrite additions_of_analyze. unfold count_anchored_single. lia.
  - rewrite deletions_of_analyze. unfold count_anchored_single. lia.
  - rewrite additions_of_analyze, deletions_of_analyze.
    unfold count_anchored_single, anchored_pieces.
    pose proof (@filter_disjoint_length _
      (Spec.begins_with_single PLUS) (Spec.begins_with_single MINUS)
      (split_by is_line_terminator diff) Hd) as H.
    rewrite split_by_length in H. lia.
  - intros Hplus Hminus.
    change (additions (CommitGen.analyze staged unstaged diff))
      with (CommitGen.count_matches (re_single PLUS) diff).
    change (deletions (CommitGen.analyze staged unstaged diff))
      with (CommitGen.count_matches (re_single MINUS) diff).
    rewrite (@count_matches_LF_lines PLUS eq_refl diff Hplus).
    rewrite (@count_matches_LF_lines MINUS eq_refl diff Hminus).
    unfold Spec.count_lines_single.
    pose proof (@filter_disjoint_length _
      (Spec.begins_with_single PLUS) (Spec.begins_with_single MINUS)
      (Spec.lines diff) Hd) as H.
    lia.
Qed.

Lemma additions_plus_deletions_of_spec_diff :
  Spec.starts_only_after_LF PLUS Examples.spec_diff = true
  /\ Spec.starts_only_after_LF MINUS Examples.spec_diff = true
  /\ (additions (CommitGen.analyze [] [] Examples.spec_diff)
      + deletions (CommitGen.analyze [] [] Examples.spec_diff)
      <= Z.of_nat (length (Spec.lines Examples.spec_diff)))%Z.
Proof.
  split; [reflexivity|]. split; [reflexivity|].
  exact (proj2 (proj2 (proj2 (additions_plus_deletions_bounded
           [] [] Examples.spec_diff))) eq_refl eq_refl).
Defined.
